(** * Course website: staff lookup, instructor-shape handling, avatar URLs,
      iframe load listeners, the Canvas build script and the bio reconciler.

    Sources embedded here:
    - [src/pages/TeachingStaff.tsx]: [fallbackInstructor], [getAvatarUrl],
      [getInstructorInfo], [canvasInstructors], [instructors];
    - [src/hooks/use-iframe-preloader.tsx]: [loadListeners],
      [subscribeToIframeLoad], [notifyListeners];
    - [scripts/build-with-canvas.sh];
    - the bio reconciler of [scripts/fetch-canvas-staff.py], which is not
      part of the available sources and is modelled from the specification.

    Strings.  A JavaScript string is a sequence of UTF-16 code units.  The
    development represents strings whose code units are below 256 (the
    Latin-1 block) as [string], one [ascii] per code unit.  On that block
    [String.prototype.toLowerCase] and [String.prototype.trim] are the
    character-wise functions written out below. *)

From Stdlib Require Import List String Ascii Bool Arith NArith Lia Permutation.
Import ListNotations.
Open Scope string_scope.

(** ** JavaScript string primitives on Latin-1 code units *)

Module JsString.

Definition code (c : ascii) : N := N_of_ascii c.

(** Code units with a lower-case mapping: A-Z, and U+00C0..U+00DE except
    the multiplication sign U+00D7. *)
Definition isUpper (c : ascii) : bool :=
  let n := code c in
  ((65 <=? n) && (n <=? 90) ||
   (192 <=? n) && (n <=? 222) && negb (n =? 215))%N.

Definition lowerChar (c : ascii) : ascii :=
  if isUpper c then ascii_of_N (code c + 32) else c.

Fixpoint toLowerCase (s : string) : string :=
  match s with
  | EmptyString => EmptyString
  | String c r => String (lowerChar c) (toLowerCase r)
  end.

(** ECMAScript WhiteSpace and LineTerminator code points below 256:
    TAB, LF, VT, FF, CR, SP and NBSP. *)
Definition isWhiteSpace (c : ascii) : bool :=
  let n := code c in
  ((9 <=? n) && (n <=? 13) || (n =? 32) || (n =? 160))%N.

Fixpoint trimStart (s : string) : string :=
  match s with
  | EmptyString => EmptyString
  | String c r => if isWhiteSpace c then trimStart r else s
  end.

Fixpoint trimEnd (s : string) : string :=
  match s with
  | EmptyString => EmptyString
  | String c r =>
      match trimEnd r with
      | EmptyString => if isWhiteSpace c then EmptyString
                       else String c EmptyString
      | r' => String c r'
      end
  end.

Definition trim (s : string) : string := trimEnd (trimStart s).

(** JavaScript truthiness of a string: only the empty string is falsy. *)
Definition truthy (s : string) : bool :=
  match s with EmptyString => false | _ => true end.

End JsString.

(** ** Data model of [src/data/instructor-bio.json] and
       [src/data/canvas-staff.json] *)

(** An entry of [instructor_bios]: [title] and [bio] may be missing. *)
Record BioEntry : Type := mkBioEntry {
  entry_name : string;
  entry_title : option string;
  entry_bio : option string
}.

(** The bios file; the [instructor_bios] key itself may be missing. *)
Record BiosData : Type := mkBiosData {
  instructor_bios : option (list BioEntry)
}.

(** A staff member of the Canvas roster.  [person_id] is the opaque
    identifier of the source system; nothing below reads it. *)
Record Person : Type := mkPerson {
  person_name : string;
  person_email : string;
  person_id : string
}.

(** The two shapes the legacy [instructor] key has had. *)
Inductive InstructorField : Type :=
| InstructorObject (p : Person)
| InstructorArray (l : list Person).

(** The roster file as the page reads it.  A key that is missing (or
    [null]) is [None]; an array, even an empty one, is truthy. *)
Record CanvasStaffData : Type := mkCanvasStaffData {
  cs_instructors : option (list Person);
  cs_instructor : option InstructorField;
  cs_tas : option (list Person);
  cs_tutors : option (list Person)
}.

(** ** [getInstructorInfo] *)

(** [s.toLowerCase().trim()], the key both sides of the comparison use. *)
Definition normalize (s : string) : string :=
  JsString.trim (JsString.toLowerCase s).

(** The trimmed, case-folded form of a name, in the order the
    specification words it: trim first, fold case second. *)
Definition trimmedFolded (s : string) : string :=
  JsString.toLowerCase (JsString.trim s).

(** The predicate passed to [bios.find]. *)
Definition nameMatches (name : string) (bioEntry : BioEntry) : bool :=
  String.eqb (normalize (entry_name bioEntry)) (normalize name).

Record InstructorInfo : Type := mkInfo {
  info_bio : string;
  info_title : string
}.

(** [x || ''] on an optional string field. *)
Definition orEmpty (x : option string) : string :=
  match x with
  | Some s => if JsString.truthy s then s else EmptyString
  | None => EmptyString
  end.

(** [(instructorBiosData as any).instructor_bios || []] *)
Definition biosOf (data : BiosData) : list BioEntry :=
  match instructor_bios data with
  | Some l => l
  | None => []
  end.

Definition getInstructorInfo (data : BiosData) (name : string)
  : option InstructorInfo :=
  match find (nameMatches name) (biosOf data) with
  | Some matchedInfo =>
      Some {| info_bio := orEmpty (entry_bio matchedInfo);
              info_title := orEmpty (entry_title matchedInfo) |}
  | None => None
  end.

(** ** [getAvatarUrl] *)

Module Uri.

Definition hexDigit (n : N) : ascii :=
  if (n <? 10)%N then ascii_of_N (48 + n) else ascii_of_N (55 + n).

(** [%XY] for one byte. *)
Definition percent (byte : N) : string :=
  String "%" (String (hexDigit (byte / 16)) (String (hexDigit (byte mod 16))
    EmptyString)).

(** Characters [encodeURIComponent] leaves alone:
    [A-Z a-z 0-9 - _ . ! ~ * ' ( )]. *)
Definition isUnreserved (c : ascii) : bool :=
  let n := JsString.code c in
  ((65 <=? n) && (n <=? 90) || (97 <=? n) && (n <=? 122) ||
   (48 <=? n) && (n <=? 57) ||
   (n =? 45) || (n =? 95) || (n =? 46) || (n =? 33) || (n =? 126) ||
   (n =? 42) || (n =? 39) || (n =? 40) || (n =? 41))%N.

(** One code unit: kept, or the percent-escapes of its UTF-8 bytes (one
    byte below U+0080, two bytes from U+0080 to U+00FF). *)
Definition encodeChar (c : ascii) : string :=
  let n := JsString.code c in
  if isUnreserved c then String c EmptyString
  else if (n <? 128)%N then percent n
  else percent (192 + n / 64) ++ percent (128 + n mod 64).

Fixpoint encodeURIComponent (s : string) : string :=
  match s with
  | EmptyString => EmptyString
  | String c r => encodeChar c ++ encodeURIComponent r
  end.

End Uri.

Definition getAvatarUrl (name : string) (email : string) : string :=
  "https://ui-avatars.com/api/?name=" ++ Uri.encodeURIComponent name
    ++ "&background=random&size=400".

(** ** The instructor cards of the [TeachingStaff] component *)

(** What the page renders for one instructor. *)
Record InstructorCard : Type := mkCard {
  card_name : string;
  card_title : option string;
  card_email : string;
  card_bio : string;
  card_image : string
}.

Definition fallbackInstructor : InstructorCard :=
  {| card_name := "Niloofar Montazeri";
     card_title := Some "Assistant Teaching Professor";
     card_email := "nimontaz@ucsc.edu";
     card_bio := "My name is Niloofar Montazeri, and I am your instructor for CSE 140. I am an Assistant Teaching Professor at UC Santa Cruz, with previous experience teaching for seven years at UC Riverside. I hold a PhD in Computer Science from the University of Southern California, specializing in Human Language Technologies.";
     card_image := "https://images.unsplash.com/photo-1494790108377-be9c29b29330?w=400&h=400&fit=crop" |}.

(** The message of [instructorInfo?.bio || '...']. *)
Definition bioNotAvailable : string :=
  "Bio not available for this instructor.".

(** The nested conditional that picks the instructor sequence. *)
Definition canvasInstructors (canvasStaffData : CanvasStaffData)
  : list Person :=
  match cs_instructors canvasStaffData with
  | Some l => l
  | None =>
      match cs_instructor canvasStaffData with
      | Some (InstructorArray l) => l
      | Some (InstructorObject p) => [p]
      | None => []
      end
  end.

(** [instructorInfo?.title || undefined] *)
Definition displayedTitle (instructorInfo : option InstructorInfo)
  : option string :=
  match instructorInfo with
  | Some i => if JsString.truthy (info_title i) then Some (info_title i)
              else None
  | None => None
  end.

(** [instructorInfo?.bio || 'Bio not available for this instructor.'] *)
Definition displayedBio (instructorInfo : option InstructorInfo) : string :=
  match instructorInfo with
  | Some i => if JsString.truthy (info_bio i) then info_bio i
              else bioNotAvailable
  | None => bioNotAvailable
  end.

(** The callback of [canvasInstructors.map]. *)
Definition instructorCard (bios : BiosData) (instructor : Person)
  : InstructorCard :=
  let instructorInfo := getInstructorInfo bios (person_name instructor) in
  {| card_name := person_name instructor;
     card_title := displayedTitle instructorInfo;
     card_email := person_email instructor;
     card_bio := displayedBio instructorInfo;
     card_image :=
       getAvatarUrl (person_name instructor) (person_email instructor) |}.

(** [const instructors = canvasInstructors.length > 0 ? ... : [fallback]] *)
Definition instructors (canvasStaffData : CanvasStaffData) (bios : BiosData)
  : list InstructorCard :=
  if (0 <? List.length (canvasInstructors canvasStaffData))%nat
  then map (instructorCard bios) (canvasInstructors canvasStaffData)
  else [fallbackInstructor].

(** ** The load listeners of [use-iframe-preloader.tsx] *)

Module IframePreloader.

(** A callback is a function reference; [indexOf] compares references with
    strict equality, so a reference is represented by its identity. *)
Definition Callback : Type := nat.

(** The module-level array [loadListeners]. *)
Definition Listeners : Type := list Callback.

(** [Array.prototype.indexOf]: the first index holding [callback];
    [None] stands for [-1]. *)
Fixpoint indexOf (callback : Callback) (l : Listeners) : option nat :=
  match l with
  | [] => None
  | c :: r =>
      if Nat.eqb c callback then Some 0
      else match indexOf callback r with
           | Some i => Some (S i)
           | None => None
           end
  end.

(** [loadListeners.splice(index, 1)] *)
Definition splice1 (index : nat) (l : Listeners) : Listeners :=
  (firstn index l ++ skipn (S index) l)%list.

(** The closure [subscribeToIframeLoad] returns, as a transformer of the
    array it closes over. *)
Definition unsubscribe (callback : Callback) (loadListeners : Listeners)
  : Listeners :=
  match indexOf callback loadListeners with
  | Some index => splice1 index loadListeners
  | None => loadListeners
  end.

(** [subscribeToIframeLoad]: pushes, and hands back the unsubscriber. *)
Definition subscribeToIframeLoad (callback : Callback)
  (loadListeners : Listeners) : Listeners * (Listeners -> Listeners) :=
  ((loadListeners ++ [callback])%list, unsubscribe callback).

(** [notifyListeners]: [forEach] runs every callback, in array order, on
    the state [W] the callbacks act on. *)
Definition notifyListeners {W : Type} (call : Callback -> W -> W)
  (loadListeners : Listeners) (w : W) : W :=
  fold_left (fun acc callback => call callback acc) loadListeners w.

(** The callbacks one [notifyListeners] invokes, in invocation order. *)
Definition invoked (loadListeners : Listeners) : list Callback :=
  notifyListeners (fun callback trace => (trace ++ [callback])%list)
    loadListeners [].

End IframePreloader.

(** ** [scripts/build-with-canvas.sh] *)

Module BuildScript.

(** The commands of the script whose exit status is decided outside it. *)
Inductive Program : Type :=
| ResolveScriptDir      (* SCRIPT_DIR="$(cd "$(dirname ...)" && pwd)" *)
| ResolveProjectRoot    (* PROJECT_ROOT="$(cd "$SCRIPT_DIR/.." && pwd)" *)
| CdProjectRoot         (* cd "$PROJECT_ROOT" *)
| CommandVPython3       (* command -v python3 &> /dev/null *)
| FetchCanvasStaff      (* python3 "$SCRIPT_DIR/fetch-canvas-staff.py" *)
| NpmBuildOnly.         (* npm run build:only *)

Inductive Simple : Type :=
| External (p : Program)
| Echo (msg : string)
| SetErrexit            (* set -e *)
| TestStatusNonzero     (* [ $? -ne 0 ] *)
| Exit (n : nat).

(** [If negate cond body] is [if cond; then body; fi], with [!] before
    [cond] when [negate] holds. *)
Inductive Stmt : Type :=
| Cmd (c : Simple)
| If (negate : bool) (cond : Simple) (body : list Simple).

Inductive Event : Type :=
| Ran (p : Program)
| Printed (msg : string).

Record Shell : Type := mkShell {
  errexit : bool;
  status : nat;          (* $? *)
  log : list Event
}.

Inductive Outcome : Type :=
| Running (s : Shell)
| Exited (code : nat) (events : list Event).

(** Exit statuses of the external programs. *)
Definition Env : Type := Program -> nat.

(** A command has finished with status [st].  Under [set -e] a failing
    command ends the shell, unless it is the condition of an [if]. *)
Definition finished (inCondition : bool) (s : Shell) (st : nat)
  (events : list Event) : Outcome :=
  if errexit s && negb inCondition && negb (st =? 0)%nat
  then Exited st events
  else Running {| errexit := errexit s; status := st; log := events |}.

Definition runSimple (env : Env) (inCondition : bool) (s : Shell)
  (c : Simple) : Outcome :=
  match c with
  | External p => finished inCondition s (env p) (log s ++ [Ran p])%list
  | Echo msg => finished inCondition s 0 (log s ++ [Printed msg])%list
  | SetErrexit => Running {| errexit := true; status := 0; log := log s |}
  | TestStatusNonzero =>
      finished inCondition s (if (status s =? 0)%nat then 1 else 0) (log s)
  | Exit n => Exited n (log s)
  end.

Fixpoint runBody (env : Env) (s : Shell) (body : list Simple) : Outcome :=
  match body with
  | [] => Running s
  | c :: rest =>
      match runSimple env false s c with
      | Running s' => runBody env s' rest
      | Exited code events => Exited code events
      end
  end.

Definition runStmt (env : Env) (s : Shell) (c : Stmt) : Outcome :=
  match c with
  | Cmd c => runSimple env false s c
  | If negate cond body =>
      match runSimple env true s cond with
      | Running s' =>
          if xorb negate (status s' =? 0)%nat
          then runBody env {| errexit := errexit s'; status := 0;
                              log := log s' |} body
          else Running {| errexit := errexit s'; status := 0;
                          log := log s' |}
      | Exited code events => Exited code events
      end
  end.

Fixpoint runFrom (env : Env) (s : Shell) (script : list Stmt) : Outcome :=
  match script with
  | [] => Running s
  | c :: rest =>
      match runStmt env s c with
      | Running s' => runFrom env s' rest
      | Exited code events => Exited code events
      end
  end.

(** A whole run: the exit code of the process and what it did. *)
Definition run (env : Env) (script : list Stmt) : nat * list Event :=
  match runFrom env {| errexit := false; status := 0; log := [] |} script with
  | Running s => (status s, log s)
  | Exited code events => (code, events)
  end.

Definition warning : string :=
  "WARNING: Failed to fetch Canvas data. Building with existing data or fallback.".

(** The part of the script after [set -e]. *)
Definition steps : list Stmt :=
  [ Cmd (External ResolveScriptDir);
    Cmd (External ResolveProjectRoot);
    Cmd (Echo "=== Fetching Canvas Staff Data ===");
    Cmd (External CdProjectRoot);
    If true (External CommandVPython3)
      [ Echo "ERROR: python3 is required but not found"; Exit 1 ];
    Cmd (External FetchCanvasStaff);
    If false TestStatusNonzero [ Echo warning ];
    Cmd (Echo EmptyString);
    Cmd (Echo "=== Building Site ===");
    Cmd (External NpmBuildOnly);
    Cmd (Echo EmptyString);
    Cmd (Echo "=== Build Complete ===") ].

(** The script as written: [set -e] on its fourth line, then the steps. *)
Definition build_with_canvas : list Stmt := Cmd SetErrexit :: steps.

(** An environment in which only the fetch script fails, with [code]. *)
Definition fetchFails (code : nat) : Env :=
  fun p => match p with FetchCanvasStaff => code | _ => 0 end.

(** Whether a run got as far as building the site. *)
Definition built (events : list Event) : bool :=
  existsb (fun e => match e with Ran NpmBuildOnly => true | _ => false end)
    events.

End BuildScript.

(** ** The Bio Reconciler *)

Module Reconciler.

(** Modelled from the spec: the persisted bios record the reconciler of
    [scripts/fetch-canvas-staff.py] (missing from the sources) reads and
    writes: its entries, in file order. *)
Record BiosRecord : Type := mkBiosRecord {
  entries : list BioEntry
}.

(** Modelled from the spec: the fixed fallback text the reconciler of
    [scripts/fetch-canvas-staff.py] (missing from the sources) gives a
    newly created entry. *)
Definition fallbackBio : string := "Bio not available for this instructor.".

(** Modelled from the spec: the loading step of the reconciler in
    [scripts/fetch-canvas-staff.py], which is missing from the sources.
    A bios file that is absent or cannot be parsed counts as the empty
    record. *)
Definition loadRecord (persisted : option BiosRecord) : BiosRecord :=
  match persisted with
  | Some r => r
  | None => {| entries := [] |}
  end.

(** Modelled from the spec: the scan of the matching algorithm of the
    reconciler in [scripts/fetch-canvas-staff.py], which is missing from
    the sources.  It walks the entries in file order and stops at the
    first one whose normalized (trimmed, case-folded) name is [key]. *)
Fixpoint scan (key : string) (es : list BioEntry) : option BioEntry :=
  match es with
  | [] => None
  | e :: rest =>
      if String.eqb (trimmedFolded (entry_name e)) key then Some e
      else scan key rest
  end.

(** Modelled from the spec: the entry the reconciler in
    [scripts/fetch-canvas-staff.py] (missing from the sources) creates for
    an unmatched instructor: the roster's name verbatim, no title, the
    fallback bio. *)
Definition newEntry (p : Person) : BioEntry :=
  {| entry_name := person_name p;
     entry_title := None;
     entry_bio := Some fallbackBio |}.

(** Modelled from the spec: the pass of the reconciler in
    [scripts/fetch-canvas-staff.py] (missing from the sources) over the
    instructors, in roster order.  Each person is looked up among the
    entries of the record as it was loaded; a person without a match adds
    one entry to the end of [appended]. *)
Fixpoint reconcileLoop (prior : list BioEntry) (people : list Person)
  (appended : list BioEntry) : list BioEntry :=
  match people with
  | [] => appended
  | p :: rest =>
      match scan (trimmedFolded (person_name p)) prior with
      | Some _ => reconcileLoop prior rest appended
      | None => reconcileLoop prior rest (appended ++ [newEntry p])%list
      end
  end.

(** Modelled from the spec: the Bio Reconciler of
    [scripts/fetch-canvas-staff.py], which is missing from the sources.
    The output is the record to persist, prior entries first and the new
    ones after them, together with the number of entries appended. *)
Definition reconcile (people : list Person) (record : BiosRecord)
  : BiosRecord * nat :=
  let appended := reconcileLoop (entries record) people [] in
  ({| entries := (entries record ++ appended)%list |}, List.length appended).

(** Whether a person has a normalized-name match in a list of entries. *)
Definition matched (es : list BioEntry) (p : Person) : bool :=
  match scan (trimmedFolded (person_name p)) es with
  | Some _ => true
  | None => false
  end.

(** The instructors order, filtered to the people without a match. *)
Definition unmatched (es : list BioEntry) (people : list Person)
  : list Person :=
  filter (fun p => negb (matched es p)) people.

End Reconciler.

(** ** The load state of [use-iframe-preloader.tsx] and the pages that
       watch it *)

Module IframeLoad.

(** The build-time variables the two URL constants read. *)
Record ImportMetaEnv : Type := mkEnv {
  VITE_CALENDAR_URL : option string;
  VITE_OFFICE_HOURS_URL : option string
}.

(** [value || fallback] on a variable that may be unset. *)
Definition orDefault (value : option string) (fallback : string) : string :=
  match value with
  | Some s => if JsString.truthy s then s else fallback
  | None => fallback
  end.

Definition CALENDAR_URL (env : ImportMetaEnv) : string :=
  orDefault (VITE_CALENDAR_URL env)
    "https://docs.google.com/document/d/1L1iCRayCBm1d1k2B9QrTdymtCrEicXc2li1hXPdKYL0/edit?tab=t.0".

Definition OFFICE_HOURS_URL (env : ImportMetaEnv) : string :=
  orDefault (VITE_OFFICE_HOURS_URL env)
    "https://docs.google.com/document/d/1qlxvJ-XVo97HnBuxywVqQFlHlZlN4aj01F6ecovUPvM/edit?tab=t.0".

(** The module-level object [iframeLoadState]. *)
Record IframeLoadState : Type := mkLoadState {
  calendarLoaded : bool;
  officeHoursLoaded : bool
}.

Definition isIframeLoaded (env : ImportMetaEnv) (st : IframeLoadState)
  (url : string) : bool :=
  if String.eqb url (CALENDAR_URL env) then calendarLoaded st
  else if String.eqb url (OFFICE_HOURS_URL env) then officeHoursLoaded st
  else false.

(** Everything the load events and the pages act on: the two module-level
    objects, and the [isLoading] state of each page instance.  A page
    instance is named by the reference of the closure it subscribes. *)
Record Store : Type := mkStore {
  iframeLoadState : IframeLoadState;
  loadListeners : IframePreloader.Listeners;
  isLoading : IframePreloader.Callback -> bool
}.

(** [setIsLoading(value)] of the page instance [page]. *)
Definition setIsLoading (s : Store) (page : IframePreloader.Callback)
  (value : bool) : Store :=
  {| iframeLoadState := iframeLoadState s;
     loadListeners := loadListeners s;
     isLoading := fun c => if Nat.eqb c page then value else isLoading s c |}.

Definition setLoadState (s : Store) (st : IframeLoadState) : Store :=
  {| iframeLoadState := st;
     loadListeners := loadListeners s;
     isLoading := isLoading s |}.

Definition setListeners (s : Store) (l : IframePreloader.Listeners) : Store :=
  {| iframeLoadState := iframeLoadState s;
     loadListeners := l;
     isLoading := isLoading s |}.

Section Pages.

Variable env : ImportMetaEnv.

(** The URL a page's closure tests: [CALENDAR_URL] in [CourseCalendar],
    [OFFICE_HOURS_URL] in [OfficeHoursCalendar]. *)
Variable watched : IframePreloader.Callback -> string.

(** The closure a page subscribes:
    [() => { if (isIframeLoaded(URL)) setIsLoading(false) }]. *)
Definition listener (page : IframePreloader.Callback) (s : Store) : Store :=
  if isIframeLoaded env (iframeLoadState s) (watched page)
  then setIsLoading s page false
  else s.

(** [notifyListeners()] on the store. *)
Definition notify (s : Store) : Store :=
  IframePreloader.notifyListeners listener (loadListeners s) s.

(** [calendarIframe.onload] of [useIframePreloader]. *)
Definition calendarOnload (s : Store) : Store :=
  notify (setLoadState s
            {| calendarLoaded := true;
               officeHoursLoaded := officeHoursLoaded (iframeLoadState s) |}).

(** [officeHoursIframe.onload] of [useIframePreloader]. *)
Definition officeHoursOnload (s : Store) : Store :=
  notify (setLoadState s
            {| calendarLoaded := calendarLoaded (iframeLoadState s);
               officeHoursLoaded := true |}).

(** [iframe.onload] of [preloadIframe(url)]. *)
Definition preloadOnload (url : string) (s : Store) : Store :=
  notify
    (if String.eqb url (CALENDAR_URL env)
     then setLoadState s
            {| calendarLoaded := true;
               officeHoursLoaded := officeHoursLoaded (iframeLoadState s) |}
     else if String.eqb url (OFFICE_HOURS_URL env)
     then setLoadState s
            {| calendarLoaded := calendarLoaded (iframeLoadState s);
               officeHoursLoaded := true |}
     else s).

(** [useState(() => !isIframeLoaded(URL))] at the first render. *)
Definition render (page : IframePreloader.Callback) (s : Store) : Store :=
  setIsLoading s page
    (negb (isIframeLoaded env (iframeLoadState s) (watched page))).

(** The body of the page's [useEffect]: the new store and the cleanup the
    effect returns, if any. *)
Definition effect (page : IframePreloader.Callback) (s : Store)
  : Store * option (Store -> Store) :=
  if isIframeLoaded env (iframeLoadState s) (watched page)
  then (setIsLoading s page false, None)
  else
    (setListeners s
       (fst (IframePreloader.subscribeToIframeLoad page (loadListeners s))),
     Some (fun s' =>
             setListeners s'
               (snd (IframePreloader.subscribeToIframeLoad page
                       (loadListeners s))
                  (loadListeners s')))).

(** [handleIframeLoad], the [onLoad] of the page's own iframe. *)
Definition handleIframeLoad (page : IframePreloader.Callback) (s : Store)
  : Store :=
  setIsLoading s page false.

(** What can happen while pages are on screen. *)
Inductive Event : Type :=
| CalendarIframeLoaded
| OfficeHoursIframeLoaded
| PreloadedIframeLoaded (url : string)
| PageIframeLoaded (page : IframePreloader.Callback)
| Rendered (page : IframePreloader.Callback)
| EffectRan (page : IframePreloader.Callback)
| CleanedUp (page : IframePreloader.Callback).

Definition step (s : Store) (e : Event) : Store :=
  match e with
  | CalendarIframeLoaded => calendarOnload s
  | OfficeHoursIframeLoaded => officeHoursOnload s
  | PreloadedIframeLoaded url => preloadOnload url s
  | PageIframeLoaded page => handleIframeLoad page s
  | Rendered page => render page s
  | EffectRan page => fst (effect page s)
  | CleanedUp page =>
      setListeners s (IframePreloader.unsubscribe page (loadListeners s))
  end.

Definition run (events : list Event) (s : Store) : Store :=
  fold_left step events s.

(** Whether an event belongs to the life cycle of [page] itself. *)
Definition ownLifecycle (page : IframePreloader.Callback) (e : Event) : bool :=
  match e with
  | Rendered p | EffectRan p | CleanedUp p => Nat.eqb p page
  | _ => false
  end.

(** What a page can rely on between its effect and its cleanup: if its
    document is reported loaded its skeleton is hidden, and if not, its
    closure is in the listener list. *)
Definition informed (page : IframePreloader.Callback) (s : Store) : Prop :=
  (isIframeLoaded env (iframeLoadState s) (watched page) = true ->
   isLoading s page = false) /\
  (isIframeLoaded env (iframeLoadState s) (watched page) = false ->
   In page (loadListeners s)).

End Pages.

End IframeLoad.

(** ** [getDownloadUrl] of [src/pages/CourseMaterial.tsx] *)

Module CourseMaterial.

(** The rest of [s] after the prefix [p], if [s] starts with [p]. *)
Fixpoint stripPrefix (p s : string) : option string :=
  match p with
  | EmptyString => Some s
  | String a p' =>
      match s with
      | EmptyString => None
      | String b s' => if Ascii.eqb a b then stripPrefix p' s' else None
      end
  end.

(** [s.includes(needle)] *)
Fixpoint includes (needle s : string) : bool :=
  match stripPrefix needle s with
  | Some _ => true
  | None =>
      match s with
      | EmptyString => false
      | String _ r => includes needle r
      end
  end.

(** The character class [[a-zA-Z0-9_-]]. *)
Definition isIdChar (c : ascii) : bool :=
  let n := JsString.code c in
  ((97 <=? n) && (n <=? 122) || (65 <=? n) && (n <=? 90) ||
   (48 <=? n) && (n <=? 57) || (n =? 95) || (n =? 45))%N.

(** The longest prefix of class characters: what a greedy
    [[a-zA-Z0-9_-]*] consumes. *)
Fixpoint takeId (s : string) : string :=
  match s with
  | EmptyString => EmptyString
  | String c r => if isIdChar c then String c (takeId r) else EmptyString
  end.

(** [s.match(/marker([a-zA-Z0-9_-]+)/)]: the first capture group of the
    leftmost match, for a literal [marker]; [None] stands for [null]. *)
Fixpoint matchId (marker s : string) : option string :=
  let here :=
    match stripPrefix marker s with
    | Some rest =>
        match takeId rest with
        | EmptyString => None
        | fileId => Some fileId
        end
    | None => None
    end in
  match here with
  | Some fileId => Some fileId
  | None =>
      match s with
      | EmptyString => None
      | String _ r => matchId marker r
      end
  end.

Definition presentationExport (fileId : string) : string :=
  "https://docs.google.com/presentation/d/" ++ fileId ++ "/export?format=pdf".

Definition driveDownload (fileId : string) : string :=
  "https://drive.google.com/uc?export=download&id=" ++ fileId.

(** The presentation branch: [Some] when it returns. *)
Definition presentationBranch (url : string) : option string :=
  if includes "docs.google.com/presentation" url then
    match matchId "/d/" url with
    | Some fileId => Some (presentationExport fileId)
    | None => None
    end
  else None.

(** The Drive file branch: [Some] when it returns. *)
Definition driveFileBranch (url : string) : option string :=
  if includes "drive.google.com/file/d/" url then
    match matchId "/file/d/" url with
    | Some fileId => Some (driveDownload fileId)
    | None => None
    end
  else None.

Definition getDownloadUrl (url : string) : string :=
  if String.eqb url "#" ||
     (negb (includes "docs.google.com" url) &&
      negb (includes "drive.google.com" url))
  then url
  else
    match presentationBranch url with
    | Some r => r
    | None =>
        match driveFileBranch url with
        | Some r => r
        | None =>
            if includes "drive.google.com/drive/folders/" url then url
            else url
        end
    end.

End CourseMaterial.

(** ** Reading an encoded name back *)

Module UriDecode.

(** The value of an upper-case hexadecimal digit. *)
Definition unhex (c : ascii) : N :=
  let n := JsString.code c in
  if (n <? 58)%N then (n - 48)%N else (n - 55)%N.

(** Reads back the first code unit [Uri.encodeChar] wrote, with the rest
    of the string.  Used to show that the encoding loses nothing. *)
Definition decodeChar (s : string) : option (ascii * string) :=
  match s with
  | EmptyString => None
  | String c rest =>
      if Ascii.eqb c "%" then
        match rest with
        | String h1 (String h2 rest1) =>
            let b := (16 * unhex h1 + unhex h2)%N in
            if (b <? 128)%N then Some (ascii_of_N b, rest1)
            else
              match rest1 with
              | String _ (String h3 (String h4 rest2)) =>
                  Some (ascii_of_N ((b - 192) * 64 +
                                    (16 * unhex h3 + unhex h4 - 128)),
                        rest2)
              | _ => None
              end
        | _ => None
        end
      else Some (c, rest)
  end.

End UriDecode.

(** * Properties *)

Module JsStringFacts.
Import JsString.

Lemma isWhiteSpace_lowerChar (c : ascii) :
  isWhiteSpace (lowerChar c) = isWhiteSpace c.
Proof.
  destruct c as [[] [] [] [] [] [] [] []]; vm_compute; reflexivity.
Qed.

Lemma toLowerCase_empty_inv (s : string) :
  toLowerCase s = EmptyString -> s = EmptyString.
Proof. destruct s; simpl; [reflexivity | discriminate]. Qed.

Lemma trimStart_toLowerCase (s : string) :
  trimStart (toLowerCase s) = toLowerCase (trimStart s).
Proof.
  induction s as [| c r IH]; simpl; [reflexivity |].
  rewrite isWhiteSpace_lowerChar.
  destruct (isWhiteSpace c); [exact IH | reflexivity].
Qed.

Lemma trimEnd_toLowerCase (s : string) :
  trimEnd (toLowerCase s) = toLowerCase (trimEnd s).
Proof.
  induction s as [| c r IH]; simpl; [reflexivity |].
  rewrite IH, isWhiteSpace_lowerChar.
  destruct (trimEnd r) as [| d r'] eqn:E; simpl.
  - destruct (isWhiteSpace c); reflexivity.
  - reflexivity.
Qed.

(** Lower-casing and trimming commute. *)
Lemma trim_toLowerCase (s : string) :
  trim (toLowerCase s) = toLowerCase (trim s).
Proof.
  unfold trim. rewrite trimStart_toLowerCase. apply trimEnd_toLowerCase.
Qed.

End JsStringFacts.

(** The source's key and the specification's normal form coincide. *)
Lemma normalize_trimmedFolded (s : string) : normalize s = trimmedFolded s.
Proof. apply JsStringFacts.trim_toLowerCase. Qed.

Lemma nameMatches_iff (name : string) (e : BioEntry) :
  nameMatches name e = true <-> normalize (entry_name e) = normalize name.
Proof. unfold nameMatches. apply String.eqb_eq. Qed.

(** ** Name matching *)

(** C4.  Name matching is case-insensitive and whitespace-trimmed: the
    roster name "  Jane Doe " matches an entry named "Jane Doe"; for any
    two names the predicate of the lookup holds exactly when their trimmed,
    case-folded forms are equal; and the lookup finds an entry exactly
    when some entry of the bios file has the same trimmed, case-folded
    name as the name looked up. *)
Theorem name_matching_trim_casefold :
  (forall title bio,
      nameMatches "  Jane Doe " (mkBioEntry "Jane Doe" title bio) = true) /\
  (forall name e,
      nameMatches name e = true <->
      trimmedFolded (entry_name e) = trimmedFolded name) /\
  (forall data name,
      getInstructorInfo data name <> None <->
      exists e, In e (biosOf data) /\
                trimmedFolded (entry_name e) = trimmedFolded name).
Proof.
  split; [| split].
  - intros title bio. vm_compute. reflexivity.
  - intros name e. rewrite nameMatches_iff, !normalize_trimmedFolded.
    reflexivity.
  - intros data name. unfold getInstructorInfo.
    destruct (find (nameMatches name) (biosOf data)) as [m |] eqn:F.
    + split; [intros _ | intros _; discriminate].
      apply find_some in F. destruct F as [Hin Hm].
      exists m. split; [exact Hin |].
      apply nameMatches_iff in Hm.
      now rewrite !normalize_trimmedFolded in Hm.
    + split; [intros H; now elim H |].
      intros [e [Hin He]]. exfalso.
      pose proof (find_none _ _ F e Hin) as Hn.
      assert (nameMatches name e = true) as Ht.
      { apply nameMatches_iff. now rewrite !normalize_trimmedFolded. }
      congruence.
Qed.

(** ** First match wins *)

Lemma find_first_match {A : Type} (f : A -> bool) (before after : list A)
  (x : A) :
  (forall d, In d before -> f d = false) -> f x = true ->
  find f (before ++ x :: after) = Some x.
Proof.
  intros Hb Hx. induction before as [| d before IH]; simpl.
  - now rewrite Hx.
  - rewrite (Hb d (or_introl eq_refl)). apply IH.
    intros d' Hd'. apply Hb. now right.
Qed.

Lemma scan_find (name : string) (es : list BioEntry) :
  Reconciler.scan (trimmedFolded name) es = find (nameMatches name) es.
Proof.
  induction es as [| e es IH]; simpl; [reflexivity |].
  unfold nameMatches at 1. rewrite IH, !normalize_trimmedFolded. reflexivity.
Qed.

(** C5.  When several entries of the bios file have the same normalized
    name, the lookup for a roster person resolves to the first of them in
    file order: if an entry matches and no entry before it does, the page's
    lookup answers with that entry's bio and title and the reconciler's
    scan answers with that entry, whatever entries follow it. *)
Theorem first_match_wins (data : BiosData) (name : string)
  (before after : list BioEntry) (e : BioEntry) :
  biosOf data = (before ++ e :: after)%list ->
  nameMatches name e = true ->
  (forall d, In d before -> nameMatches name d = false) ->
  getInstructorInfo data name =
    Some {| info_bio := orEmpty (entry_bio e);
            info_title := orEmpty (entry_title e) |} /\
  Reconciler.scan (trimmedFolded name) (biosOf data) = Some e.
Proof.
  intros Hd He Hb.
  assert (find (nameMatches name) (biosOf data) = Some e) as F.
  { rewrite Hd. now apply find_first_match. }
  split.
  - unfold getInstructorInfo. now rewrite F.
  - now rewrite scan_find.
Qed.

(** Two entries with the same normalized name; the roster spells the name
    a third way.  The first entry is the one selected. *)
Lemma first_match_wins_witness :
  getInstructorInfo
    (mkBiosData (Some [ mkBioEntry "Jane Doe" (Some "Professor") (Some "First");
                        mkBioEntry "jane doe " None (Some "Second") ]))
    " JANE DOE" =
    Some {| info_bio := "First"; info_title := "Professor" |} /\
  Reconciler.scan (trimmedFolded " JANE DOE")
    [ mkBioEntry "Jane Doe" (Some "Professor") (Some "First");
      mkBioEntry "jane doe " None (Some "Second") ] =
    Some (mkBioEntry "Jane Doe" (Some "Professor") (Some "First")).
Proof.
  apply (first_match_wins
           (mkBiosData
              (Some [ mkBioEntry "Jane Doe" (Some "Professor") (Some "First");
                      mkBioEntry "jane doe " None (Some "Second") ]))
           " JANE DOE" []
           [ mkBioEntry "jane doe " None (Some "Second") ]
           (mkBioEntry "Jane Doe" (Some "Professor") (Some "First"))).
  - reflexivity.
  - vm_compute. reflexivity.
  - intros d [].
Defined.

(** ** What the page shows for an instructor *)

Lemma truthy_false (s : string) : JsString.truthy s = false -> s = EmptyString.
Proof. destruct s; simpl; [reflexivity | discriminate]. Qed.

Lemma orEmpty_truthy (x : option string) :
  JsString.truthy (orEmpty x) = true -> x = Some (orEmpty x).
Proof.
  destruct x as [s |]; simpl; [| discriminate].
  destruct (JsString.truthy s) eqn:T; simpl; [reflexivity | discriminate].
Qed.

Lemma orEmpty_empty (x : option string) :
  orEmpty x = EmptyString <-> x = None \/ x = Some EmptyString.
Proof.
  destruct x as [s |]; simpl.
  - destruct (JsString.truthy s) eqn:T.
    + split.
      * intros ->. discriminate.
      * intros [H | H]; [discriminate | now inversion H].
    + apply truthy_false in T. subst. split; [now right | reflexivity].
  - split; [now left | reflexivity].
Qed.

Lemma instructors_nonempty (staff : CanvasStaffData) (bios : BiosData) :
  canvasInstructors staff <> [] ->
  instructors staff bios = map (instructorCard bios) (canvasInstructors staff).
Proof.
  unfold instructors. destruct (canvasInstructors staff); [congruence |].
  reflexivity.
Qed.

Lemma displayedBio_found (bios : BiosData) (name : string) (e : BioEntry) :
  find (nameMatches name) (biosOf bios) = Some e ->
  displayedBio (getInstructorInfo bios name) =
    if JsString.truthy (orEmpty (entry_bio e)) then orEmpty (entry_bio e)
    else bioNotAvailable.
Proof. intros F. unfold getInstructorInfo. now rewrite F. Qed.

Lemma displayedBio_not_found (bios : BiosData) (name : string) :
  find (nameMatches name) (biosOf bios) = None ->
  displayedBio (getInstructorInfo bios name) = bioNotAvailable.
Proof. intros F. unfold getInstructorInfo. now rewrite F. Qed.

(** C3, as the code has it.  For every instructor taken from the canvas
    staff data a card is rendered, and its bio is the message "Bio not
    available for this instructor." exactly when no bios entry matches the
    instructor's name under normalization, or the first matching entry's
    bio is absent, empty, or is itself that message; when no entry matches,
    the card has no title. *)
Theorem displayed_bio_fallback (staff : CanvasStaffData) (bios : BiosData)
  (p : Person) :
  In p (canvasInstructors staff) ->
  In (instructorCard bios p) (instructors staff bios) /\
  (card_bio (instructorCard bios p) = bioNotAvailable <->
   find (nameMatches (person_name p)) (biosOf bios) = None \/
   exists e, find (nameMatches (person_name p)) (biosOf bios) = Some e /\
             (entry_bio e = None \/ entry_bio e = Some EmptyString \/
              entry_bio e = Some bioNotAvailable)) /\
  (find (nameMatches (person_name p)) (biosOf bios) = None ->
   card_title (instructorCard bios p) = None).
Proof.
  intros Hin. split; [| split].
  - rewrite instructors_nonempty.
    + now apply in_map.
    + intros E. rewrite E in Hin. exact Hin.
  - change (card_bio (instructorCard bios p))
      with (displayedBio (getInstructorInfo bios (person_name p))).
    destruct (find (nameMatches (person_name p)) (biosOf bios)) as [e |] eqn:F.
    + rewrite (displayedBio_found _ _ _ F).
      destruct (entry_bio e) as [[| c s] |] eqn:B; simpl.
      * split; [intros _ | reflexivity].
        right. exists e. split; [reflexivity | right; left; exact B].
      * split.
        -- intros Hs. right. exists e. split; [reflexivity |].
           right; right. rewrite B. now f_equal.
        -- intros [H | [e' [He' Hc]]]; [discriminate |].
           inversion He'; subst e'. rewrite B in Hc.
           destruct Hc as [Hc | [Hc | Hc]]; try discriminate.
           now inversion Hc.
      * split; [intros _ | reflexivity].
        right. exists e. split; [reflexivity | left; exact B].
    + rewrite (displayedBio_not_found _ _ F).
      split; [now left | reflexivity].
  - intros F. simpl. unfold getInstructorInfo. now rewrite F.
Qed.

(** An instructor whose entry carries a real bio: the card shows it. *)
Lemma displayed_bio_fallback_witness :
  In (mkPerson "Ada Lovelace" "ada@ucsc.edu" "7")
     (canvasInstructors
        (mkCanvasStaffData
           (Some [mkPerson "Ada Lovelace" "ada@ucsc.edu" "7"])
           None None None)) /\
  ~ card_bio
      (instructorCard
         (mkBiosData
            (Some [mkBioEntry " ada lovelace" None (Some "Custom bio")]))
         (mkPerson "Ada Lovelace" "ada@ucsc.edu" "7")) = bioNotAvailable.
Proof.
  split; [simpl; now left |].
  destruct (displayed_bio_fallback
              (mkCanvasStaffData
                 (Some [mkPerson "Ada Lovelace" "ada@ucsc.edu" "7"])
                 None None None)
              (mkBiosData
                 (Some [mkBioEntry " ada lovelace" None (Some "Custom bio")]))
              (mkPerson "Ada Lovelace" "ada@ucsc.edu" "7")
              (or_introl eq_refl)) as (_ & Hiff & _).
  intros Hb. apply Hiff in Hb.
  destruct Hb as [Hb | [e [He Hc]]].
  - vm_compute in Hb. discriminate.
  - vm_compute in He. inversion He; subst e.
    destruct Hc as [Hc | [Hc | Hc]]; vm_compute in Hc; discriminate.
Defined.

(** C3, as stated, fails: an entry that matches and whose stored bio is the
    placeholder text (the shape every automatically created entry has)
    makes the card show the message although the entry matches and its bio
    is neither absent nor empty. *)
Lemma displayed_bio_fallback_counterexample :
  ~ (card_bio
       (instructorCard
          (mkBiosData
             (Some [mkBioEntry "Alan Turing" None
                      (Some "Bio not available for this instructor.")]))
          (mkPerson "Alan Turing" "alan@ucsc.edu" "9")) = bioNotAvailable
     <->
     (find (nameMatches "Alan Turing")
        [mkBioEntry "Alan Turing" None
           (Some "Bio not available for this instructor.")] = None \/
      exists e,
        find (nameMatches "Alan Turing")
          [mkBioEntry "Alan Turing" None
             (Some "Bio not available for this instructor.")] = Some e /\
        (entry_bio e = None \/ entry_bio e = Some EmptyString))).
Proof.
  intros [Hto _].
  destruct (Hto eq_refl) as [Hn | [e [He Hc]]].
  - vm_compute in Hn. discriminate.
  - vm_compute in He. inversion He; subst e.
    destruct Hc as [Hc | Hc]; vm_compute in Hc; discriminate.
Qed.

(** ** Shapes of the instructor field *)

(** C8.  The page accepts every shape of the roster's instructor field: an
    [instructors] array is taken as it is, a single [instructor] object
    becomes a one-element sequence, an [instructor] array is taken as it
    is, and a missing field becomes the empty sequence; when the sequence
    is empty the page renders exactly the hardcoded fallback instructor,
    and otherwise one card per person. *)
Theorem instructor_field_shapes :
  (forall l legacy tas tutors,
      canvasInstructors (mkCanvasStaffData (Some l) legacy tas tutors) = l) /\
  (forall p tas tutors,
      canvasInstructors
        (mkCanvasStaffData None (Some (InstructorObject p)) tas tutors)
      = [p]) /\
  (forall l tas tutors,
      canvasInstructors
        (mkCanvasStaffData None (Some (InstructorArray l)) tas tutors) = l) /\
  (forall tas tutors,
      canvasInstructors (mkCanvasStaffData None None tas tutors) = []) /\
  (forall staff bios,
      instructors staff bios =
        match canvasInstructors staff with
        | [] => [fallbackInstructor]
        | people => map (instructorCard bios) people
        end).
Proof.
  repeat split.
  intros staff bios. unfold instructors.
  destruct (canvasInstructors staff); reflexivity.
Qed.

(** ** Avatar URLs *)

(** C9.  The avatar URL of a staff member depends only on the name: for
    every name and any two emails [getAvatarUrl] gives the same URL. *)
Theorem getAvatarUrl_ignores_email (name email1 email2 : string) :
  getAvatarUrl name email1 = getAvatarUrl name email2.
Proof. reflexivity. Qed.

(** The URL for a name with a space and a non-ASCII letter. *)
Example getAvatarUrl_example :
  getAvatarUrl (String "J" (String (ascii_of_N 233) " Doe")) "j@ucsc.edu" =
  "https://ui-avatars.com/api/?name=J%C3%A9%20Doe&background=random&size=400".
Proof. vm_compute. reflexivity. Qed.

(** ** Subscribing and unsubscribing load listeners *)

Module IframePreloaderFacts.
Import IframePreloader.
Local Open Scope list_scope.

(** [indexOf] followed by [splice] drops the first occurrence. *)
Lemma unsubscribe_cons (callback c : Callback) (r : Listeners) :
  unsubscribe callback (c :: r) =
    if Nat.eqb c callback then r else c :: unsubscribe callback r.
Proof.
  unfold unsubscribe. simpl.
  destruct (Nat.eqb c callback); [reflexivity |].
  destruct (indexOf callback r); reflexivity.
Qed.

Lemma unsubscribe_absent (callback : Callback) (l : Listeners) :
  ~ In callback l -> unsubscribe callback l = l.
Proof.
  induction l as [| c r IH]; intros Hn; [reflexivity |].
  rewrite unsubscribe_cons.
  destruct (Nat.eqb_spec c callback) as [-> | Hne].
  - elim Hn. now left.
  - f_equal. apply IH. intros Hin. apply Hn. now right.
Qed.

Lemma unsubscribe_push_fresh (callback : Callback) (l : Listeners) :
  ~ In callback l -> unsubscribe callback (l ++ [callback]) = l.
Proof.
  induction l as [| c r IH]; intros Hn; simpl app.
  - rewrite unsubscribe_cons. now rewrite Nat.eqb_refl.
  - rewrite unsubscribe_cons.
    destruct (Nat.eqb_spec c callback) as [-> | Hne].
    + elim Hn. now left.
    + f_equal. apply IH. intros Hin. apply Hn. now right.
Qed.

Lemma unsubscribe_push_present (callback : Callback) (l : Listeners) :
  In callback l ->
  unsubscribe callback (l ++ [callback]) = unsubscribe callback l ++ [callback].
Proof.
  induction l as [| c r IH]; intros Hin; [destruct Hin |].
  simpl app. rewrite !unsubscribe_cons.
  destruct (Nat.eqb_spec c callback) as [-> | Hne]; [reflexivity |].
  simpl. f_equal. apply IH. destruct Hin; [congruence | assumption].
Qed.

Lemma unsubscribe_removes_one (callback : Callback) (l : Listeners) :
  In callback l -> Permutation (callback :: unsubscribe callback l) l.
Proof.
  induction l as [| c r IH]; intros Hin; [destruct Hin |].
  rewrite unsubscribe_cons.
  destruct (Nat.eqb_spec c callback) as [-> | Hne]; [reflexivity |].
  destruct Hin as [-> | Hin]; [congruence |].
  rewrite perm_swap. now rewrite IH.
Qed.

Lemma unsubscribe_push_perm (callback : Callback) (l : Listeners) :
  Permutation (unsubscribe callback (l ++ [callback])) l.
Proof.
  apply Permutation_cons_inv with (a := callback).
  rewrite unsubscribe_removes_one by (apply in_or_app; right; now left).
  symmetry. apply Permutation_cons_append.
Qed.

Lemma notify_trace (l : Listeners) (trace : list Callback) :
  notifyListeners (fun callback t => t ++ [callback]) l trace = trace ++ l.
Proof.
  unfold notifyListeners. revert trace.
  induction l as [| c r IH]; intros trace; simpl.
  - now rewrite app_nil_r.
  - rewrite IH, <- app_assoc. reflexivity.
Qed.

Lemma invoked_eq (l : Listeners) : invoked l = l.
Proof. unfold invoked. apply notify_trace. Qed.

End IframePreloaderFacts.

(** C10, as the code has it.  Subscribing a callback and then calling the
    returned unsubscribe function restores the listener list exactly, and
    so the sequence of callbacks [notifyListeners] invokes, when the
    callback was not already subscribed.  When it was, the unsubscribe
    removes its earliest occurrence and the pushed one stays at the end:
    the list, and what [notifyListeners] invokes, is then a rearrangement
    of the prior one.  In every list the unsubscribe removes exactly one
    occurrence of the callback, and it does nothing when the callback is
    not present. *)
Theorem subscribe_then_unsubscribe (callback : IframePreloader.Callback)
  (loadListeners : IframePreloader.Listeners) :
  let pushed := fst (IframePreloader.subscribeToIframeLoad callback
                       loadListeners) in
  let unsub := snd (IframePreloader.subscribeToIframeLoad callback
                      loadListeners) in
  (~ In callback loadListeners ->
   unsub pushed = loadListeners /\
   IframePreloader.invoked (unsub pushed) =
     IframePreloader.invoked loadListeners) /\
  (In callback loadListeners ->
   unsub pushed = unsub loadListeners ++ [callback])%list /\
  Permutation (unsub pushed) loadListeners /\
  Permutation (IframePreloader.invoked (unsub pushed))
    (IframePreloader.invoked loadListeners) /\
  (forall l, In callback l -> Permutation (callback :: unsub l) l) /\
  (forall l, ~ In callback l -> unsub l = l).
Proof.
  simpl. repeat split.
  - now apply IframePreloaderFacts.unsubscribe_push_fresh.
  - now rewrite IframePreloaderFacts.unsubscribe_push_fresh.
  - apply IframePreloaderFacts.unsubscribe_push_present.
  - apply IframePreloaderFacts.unsubscribe_push_perm.
  - rewrite !IframePreloaderFacts.invoked_eq.
    apply IframePreloaderFacts.unsubscribe_push_perm.
  - apply IframePreloaderFacts.unsubscribe_removes_one.
  - apply IframePreloaderFacts.unsubscribe_absent.
Qed.

(** A callback that is new to the list: the list is restored. *)
Lemma subscribe_then_unsubscribe_witness :
  ~ In 3 [1; 2] /\
  snd (IframePreloader.subscribeToIframeLoad 3 [1; 2])
    (fst (IframePreloader.subscribeToIframeLoad 3 [1; 2])) = [1; 2].
Proof.
  assert (~ In 3 [1; 2]) as Hfresh.
  { simpl. intros [H | [H | []]]; discriminate. }
  split; [exact Hfresh |].
  exact (proj1 (proj1 (subscribe_then_unsubscribe 3 [1; 2]) Hfresh)).
Defined.

(** C10, as stated, fails when the callback is already subscribed: from
    the list [1; 2], subscribing 1 again and unsubscribing leaves [2; 1],
    and [notifyListeners] then calls 2 before 1. *)
Lemma subscribe_then_unsubscribe_counterexample :
  snd (IframePreloader.subscribeToIframeLoad 1 [1; 2])
    (fst (IframePreloader.subscribeToIframeLoad 1 [1; 2])) = [2; 1] /\
  snd (IframePreloader.subscribeToIframeLoad 1 [1; 2])
    (fst (IframePreloader.subscribeToIframeLoad 1 [1; 2])) <> [1; 2] /\
  IframePreloader.invoked
    (snd (IframePreloader.subscribeToIframeLoad 1 [1; 2])
       (fst (IframePreloader.subscribeToIframeLoad 1 [1; 2])))
  <> IframePreloader.invoked [1; 2].
Proof.
  split; [reflexivity |]. split; vm_compute; discriminate.
Qed.

(** ** The build script when the fetch fails *)

Module BuildScriptFacts.
Import BuildScript.
Local Open Scope list_scope.

(** Under [set -e] the shell ends at the failing fetch, whatever the other
    commands do: the site is never built after a failed fetch. *)
Lemma fetch_failure_never_builds (env : Env) :
  env FetchCanvasStaff <> 0 ->
  built (snd (run env build_with_canvas)) = false.
Proof.
  intros Hfail. unfold run, build_with_canvas, steps. simpl.
  unfold finished; simpl.
  destruct (env ResolveScriptDir); simpl; [| reflexivity].
  destruct (env ResolveProjectRoot); simpl; [| reflexivity].
  destruct (env CdProjectRoot); simpl; [| reflexivity].
  destruct (env CommandVPython3); simpl; [| reflexivity].
  destruct (env FetchCanvasStaff); simpl; [congruence | reflexivity].
Qed.

(** Without [set -e] the same steps reach the build after a failed fetch,
    printing the warning on the way. *)
Lemma without_errexit_build_continues (code : nat) :
  built (snd (run (fetchFails code) steps)) = true.
Proof. destruct code; reflexivity. Qed.

End BuildScriptFacts.

(** C7, on the script as written.  With the fetch script exiting with
    status 1 and every other command succeeding, the run ends at the fetch
    with exit code 1: the warning is not printed and [npm run build:only]
    is not run.  The same steps without [set -e] print the warning and
    build the site. *)
Theorem fetch_failure_aborts_build :
  BuildScript.run (BuildScript.fetchFails 1) BuildScript.build_with_canvas =
    (1, [ BuildScript.Ran BuildScript.ResolveScriptDir;
          BuildScript.Ran BuildScript.ResolveProjectRoot;
          BuildScript.Printed "=== Fetching Canvas Staff Data ===";
          BuildScript.Ran BuildScript.CdProjectRoot;
          BuildScript.Ran BuildScript.CommandVPython3;
          BuildScript.Ran BuildScript.FetchCanvasStaff ]) /\
  BuildScript.built
    (snd (BuildScript.run (BuildScript.fetchFails 1)
            BuildScript.build_with_canvas)) = false /\
  BuildScript.run (BuildScript.fetchFails 1) BuildScript.steps =
    (0, [ BuildScript.Ran BuildScript.ResolveScriptDir;
          BuildScript.Ran BuildScript.ResolveProjectRoot;
          BuildScript.Printed "=== Fetching Canvas Staff Data ===";
          BuildScript.Ran BuildScript.CdProjectRoot;
          BuildScript.Ran BuildScript.CommandVPython3;
          BuildScript.Ran BuildScript.FetchCanvasStaff;
          BuildScript.Printed BuildScript.warning;
          BuildScript.Printed EmptyString;
          BuildScript.Printed "=== Building Site ===";
          BuildScript.Ran BuildScript.NpmBuildOnly;
          BuildScript.Printed EmptyString;
          BuildScript.Printed "=== Build Complete ===" ]).
Proof. repeat split. Qed.

(** A successful fetch builds the site. *)
Example fetch_success_builds :
  BuildScript.built
    (snd (BuildScript.run (BuildScript.fetchFails 0)
            BuildScript.build_with_canvas)) = true.
Proof. reflexivity. Qed.

(** ** The reconciler *)

Module ReconcilerFacts.
Import Reconciler.
Local Open Scope list_scope.

(** Invariant of the pass: what has been appended so far, followed by one
    new entry for each unmatched person still to come. *)
Lemma reconcileLoop_spec (prior : list BioEntry) (people : list Person) :
  forall appended,
    reconcileLoop prior people appended =
      appended ++ map newEntry (unmatched prior people).
Proof.
  unfold unmatched.
  induction people as [| p rest IH]; intros appended; simpl.
  - now rewrite app_nil_r.
  - unfold matched.
    destruct (scan (trimmedFolded (person_name p)) prior); simpl.
    + apply IH.
    + rewrite IH, <- app_assoc. reflexivity.
Qed.

Lemma scan_app (key : string) (a b : list BioEntry) :
  scan key (a ++ b) =
    match scan key a with
    | Some e => Some e
    | None => scan key b
    end.
Proof.
  induction a as [| e a IH]; simpl; [reflexivity |].
  destruct (String.eqb (trimmedFolded (entry_name e)) key); [reflexivity | exact IH].
Qed.

Lemma scan_some_in (key : string) (es : list BioEntry) (e : BioEntry) :
  scan key es = Some e -> In e es /\ trimmedFolded (entry_name e) = key.
Proof.
  induction es as [| d es IH]; simpl; [discriminate |].
  destruct (String.eqb_spec (trimmedFolded (entry_name d)) key) as [E | _].
  - intros H. inversion H; subst. split; [now left | reflexivity].
  - intros H. destruct (IH H) as [Hin Hk]. split; [now right | exact Hk].
Qed.

Lemma scan_in_some (key : string) (es : list BioEntry) (e : BioEntry) :
  In e es -> trimmedFolded (entry_name e) = key -> scan key es <> None.
Proof.
  induction es as [| d es IH]; simpl; [intros [] |].
  intros [-> | Hin] Hk.
  - rewrite <- Hk, String.eqb_refl. discriminate.
  - destruct (String.eqb (trimmedFolded (entry_name d)) key);
      [discriminate | now apply IH].
Qed.

Lemma scan_none_iff (key : string) (es : list BioEntry) :
  scan key es = None <->
  forall e, In e es -> trimmedFolded (entry_name e) <> key.
Proof.
  split.
  - intros Hn e Hin Hk. now apply (scan_in_some key es e).
  - intros H. destruct (scan key es) as [e |] eqn:S; [| reflexivity].
    apply scan_some_in in S. destruct S as [Hin Hk]. now elim (H e Hin).
Qed.

(** After a pass every person of the roster has a match. *)
Lemma matched_after_pass (prior : list BioEntry) (people : list Person)
  (p : Person) :
  In p people ->
  matched (prior ++ map newEntry (unmatched prior people)) p = true.
Proof.
  intros Hin. unfold matched at 1. rewrite scan_app.
  destruct (scan (trimmedFolded (person_name p)) prior) eqn:S; [reflexivity |].
  destruct (scan (trimmedFolded (person_name p))
              (map newEntry (unmatched prior people))) eqn:S2;
    [reflexivity |].
  exfalso. apply (scan_in_some _ _ (newEntry p)) in S2; [exact S2 | |].
  - apply in_map. apply filter_In. split; [exact Hin |].
    unfold matched. now rewrite S.
  - reflexivity.
Qed.

Lemma unmatched_none (es : list BioEntry) (people : list Person) :
  (forall p, In p people -> matched es p = true) ->
  unmatched es people = [].
Proof.
  unfold unmatched.
  induction people as [| p rest IH]; intros H; simpl; [reflexivity |].
  rewrite (H p (or_introl eq_refl)). simpl.
  apply IH. intros q Hq. apply H. now right.
Qed.

End ReconcilerFacts.

(** C1.  The reconciler never modifies, removes or reorders an entry that
    was in the persisted record before the run: the output record starts
    with the prior entries, so every prior entry is found at its old
    position with its name, title and bio as they were, also when the
    roster spells the name with other case or whitespace. *)
Theorem prior_entries_preserved (people : list Person)
  (record : Reconciler.BiosRecord) :
  firstn (List.length (Reconciler.entries record))
    (Reconciler.entries (fst (Reconciler.reconcile people record)))
  = Reconciler.entries record /\
  forall i e,
    nth_error (Reconciler.entries record) i = Some e ->
    nth_error (Reconciler.entries (fst (Reconciler.reconcile people record))) i
    = Some e.
Proof.
  simpl. split.
  - rewrite firstn_app, Nat.sub_diag, firstn_all. simpl. apply app_nil_r.
  - intros i e H. rewrite nth_error_app1; [exact H |].
    apply nth_error_Some. congruence.
Qed.

(** The roster spells Ada's name in capitals with spaces around it; her
    entry stays first and as it was. *)
Lemma prior_entries_preserved_witness :
  nth_error
    (Reconciler.entries
       (fst (Reconciler.reconcile
               [ mkPerson "  ADA LOVELACE " "ada@ucsc.edu" "7";
                 mkPerson "Alan Turing" "alan@ucsc.edu" "9" ]
               (Reconciler.mkBiosRecord
                  [ mkBioEntry "Ada Lovelace" (Some "Professor")
                      (Some "Custom bio") ])))) 0
  = Some (mkBioEntry "Ada Lovelace" (Some "Professor") (Some "Custom bio")).
Proof.
  apply (proj2 (prior_entries_preserved
                  [ mkPerson "  ADA LOVELACE " "ada@ucsc.edu" "7";
                    mkPerson "Alan Turing" "alan@ucsc.edu" "9" ]
                  (Reconciler.mkBiosRecord
                     [ mkBioEntry "Ada Lovelace" (Some "Professor")
                         (Some "Custom bio") ]))).
  reflexivity.
Defined.

(** ** Appending the unmatched instructors *)

(** C2.  The entries the reconciler appends are one new entry for each
    instructor without a normalized-name match among the prior entries, in
    instructors order: each has the roster's name verbatim, no title and
    the fallback bio; no appended entry has a match among the prior
    entries, so an instructor that matches an existing entry, even only
    under normalization, is not appended; the count reported is the number
    of unmatched instructors.  The appended entries are thus determined by
    the (instructors, record) pair. *)
Theorem unmatched_instructors_appended (people : list Person)
  (record : Reconciler.BiosRecord) :
  Reconciler.entries (fst (Reconciler.reconcile people record)) =
    (Reconciler.entries record ++
     map Reconciler.newEntry
       (Reconciler.unmatched (Reconciler.entries record) people))%list /\
  snd (Reconciler.reconcile people record) =
    List.length (Reconciler.unmatched (Reconciler.entries record) people) /\
  (forall p,
      Reconciler.newEntry p =
        {| entry_name := person_name p;
           entry_title := None;
           entry_bio := Some "Bio not available for this instructor." |}) /\
  (forall p,
      In p (Reconciler.unmatched (Reconciler.entries record) people) <->
      In p people /\
      forall e, In e (Reconciler.entries record) ->
                trimmedFolded (entry_name e) <> trimmedFolded (person_name p)) /\
  (forall p e,
      In p people ->
      In e (Reconciler.entries record) ->
      trimmedFolded (entry_name e) = trimmedFolded (person_name p) ->
      ~ In p (Reconciler.unmatched (Reconciler.entries record) people)).
Proof.
  assert (forall p,
      In p (Reconciler.unmatched (Reconciler.entries record) people) <->
      In p people /\
      forall e, In e (Reconciler.entries record) ->
                trimmedFolded (entry_name e) <> trimmedFolded (person_name p))
    as Hfilter.
  { intros p. unfold Reconciler.unmatched. rewrite filter_In.
    rewrite <- ReconcilerFacts.scan_none_iff.
    unfold Reconciler.matched.
    destruct (Reconciler.scan (trimmedFolded (person_name p))
                (Reconciler.entries record)); simpl.
    - split; intros [_ H]; discriminate.
    - split; intros [H _]; split; auto. }
  split; [| split; [| split; [| split]]].
  - simpl. now rewrite ReconcilerFacts.reconcileLoop_spec.
  - simpl. rewrite ReconcilerFacts.reconcileLoop_spec. simpl.
    apply length_map.
  - reflexivity.
  - exact Hfilter.
  - intros p e _ He Hk Hin. apply Hfilter in Hin. destruct Hin as [_ Hn].
    exact (Hn e He Hk).
Qed.

(** The second scenario of the specification, with the roster spelling
    Ada's name differently: only Alan is appended. *)
Lemma unmatched_instructors_appended_witness :
  Reconciler.reconcile
    [ mkPerson "  ADA LOVELACE " "ada@ucsc.edu" "7";
      mkPerson "Alan Turing" "alan@ucsc.edu" "9" ]
    (Reconciler.mkBiosRecord
       [ mkBioEntry "Ada Lovelace" (Some "Professor") (Some "Custom bio") ])
  = (Reconciler.mkBiosRecord
       [ mkBioEntry "Ada Lovelace" (Some "Professor") (Some "Custom bio");
         mkBioEntry "Alan Turing" None
           (Some "Bio not available for this instructor.") ], 1) /\
  ~ In (mkPerson "  ADA LOVELACE " "ada@ucsc.edu" "7")
      (Reconciler.unmatched
         [ mkBioEntry "Ada Lovelace" (Some "Professor") (Some "Custom bio") ]
         [ mkPerson "  ADA LOVELACE " "ada@ucsc.edu" "7";
           mkPerson "Alan Turing" "alan@ucsc.edu" "9" ]).
Proof.
  split; [vm_compute; reflexivity |].
  destruct (unmatched_instructors_appended
              [ mkPerson "  ADA LOVELACE " "ada@ucsc.edu" "7";
                mkPerson "Alan Turing" "alan@ucsc.edu" "9" ]
              (Reconciler.mkBiosRecord
                 [ mkBioEntry "Ada Lovelace" (Some "Professor")
                     (Some "Custom bio") ]))
    as (_ & _ & _ & _ & Hnot).
  apply (Hnot _ (mkBioEntry "Ada Lovelace" (Some "Professor")
                   (Some "Custom bio"))).
  - simpl. now left.
  - simpl. now left.
  - vm_compute. reflexivity.
Defined.

(** The first scenario of the specification: an empty record and two
    instructors give two fallback entries, in roster order. *)
Example reconcile_empty_record :
  Reconciler.reconcile
    [ mkPerson "Ada Lovelace" "ada@ucsc.edu" "7";
      mkPerson "Alan Turing" "alan@ucsc.edu" "9" ]
    (Reconciler.loadRecord None)
  = (Reconciler.mkBiosRecord
       [ mkBioEntry "Ada Lovelace" None (Some Reconciler.fallbackBio);
         mkBioEntry "Alan Turing" None (Some Reconciler.fallbackBio) ], 2).
Proof. vm_compute. reflexivity. Qed.

(** ** Idempotence *)

(** C6.  Reconciling a second time, with the same instructors, the record
    the first run produced gives that record again and reports no appended
    entry. *)
Theorem reconcile_idempotent (people : list Person)
  (record : Reconciler.BiosRecord) :
  Reconciler.reconcile people (fst (Reconciler.reconcile people record)) =
    (fst (Reconciler.reconcile people record), 0).
Proof.
  unfold Reconciler.reconcile at 1.
  rewrite ReconcilerFacts.reconcileLoop_spec.
  rewrite ReconcilerFacts.unmatched_none.
  - simpl. rewrite app_nil_r. reflexivity.
  - intros p Hin. simpl. rewrite ReconcilerFacts.reconcileLoop_spec. simpl.
    now apply ReconcilerFacts.matched_after_pass.
Qed.

(** * Further properties of the page, the hook and the script *)

(** ** The instructor cards *)

(** The cards follow the roster: when the roster names instructors there
    is one card per instructor, in roster order, carrying the roster's
    name and email verbatim; the list of cards is never empty. *)
Theorem cards_follow_roster (staff : CanvasStaffData) (bios : BiosData) :
  instructors staff bios <> [] /\
  List.length (instructors staff bios) =
    Nat.max 1 (List.length (canvasInstructors staff)) /\
  (canvasInstructors staff <> [] ->
   map card_name (instructors staff bios) =
     map person_name (canvasInstructors staff) /\
   map card_email (instructors staff bios) =
     map person_email (canvasInstructors staff)).
Proof.
  unfold instructors.
  destruct (canvasInstructors staff) as [| p people]; simpl.
  - split; [discriminate |]. split; [reflexivity |].
    intros H. now elim H.
  - split; [discriminate |]. split.
    + now rewrite length_map.
    + intros _. rewrite !map_map. simpl. split; reflexivity.
Qed.

Lemma cards_follow_roster_witness :
  map card_name
    (instructors
       (mkCanvasStaffData None
          (Some (InstructorArray
                   [ mkPerson "Ada Lovelace" "ada@ucsc.edu" "7";
                     mkPerson "Alan Turing" "alan@ucsc.edu" "9" ]))
          None None)
       (mkBiosData None))
  = [ "Ada Lovelace"; "Alan Turing" ].
Proof.
  apply (proj2 (proj2 (cards_follow_roster
                         (mkCanvasStaffData None
                            (Some (InstructorArray
                                     [ mkPerson "Ada Lovelace" "ada@ucsc.edu" "7";
                                       mkPerson "Alan Turing" "alan@ucsc.edu" "9" ]))
                            None None)
                         (mkBiosData None)))).
  simpl. discriminate.
Defined.

Lemma displayedBio_nonempty (info : option InstructorInfo) :
  displayedBio info <> EmptyString.
Proof.
  destruct info as [i |]; simpl; [| discriminate].
  destruct (info_bio i); simpl; discriminate.
Qed.

Lemma displayedTitle_nonempty (info : option InstructorInfo) :
  displayedTitle info <> Some EmptyString.
Proof.
  destruct info as [i |]; simpl; [| discriminate].
  destruct (info_title i); simpl; discriminate.
Qed.

(** Every card the page renders has a bio to show, and a title that is
    either absent or not empty: a missing or empty bio never reaches the
    page as an empty paragraph. *)
Theorem cards_have_bio (staff : CanvasStaffData) (bios : BiosData)
  (card : InstructorCard) :
  In card (instructors staff bios) ->
  card_bio card <> EmptyString /\ card_title card <> Some EmptyString.
Proof.
  unfold instructors.
  destruct (canvasInstructors staff) as [| p people]; simpl (0 <? _)%nat; cbv iota.
  - intros [<- | []]. split; discriminate.
  - intros Hin. apply in_map_iff in Hin. destruct Hin as [q [<- _]].
    split; [apply displayedBio_nonempty | apply displayedTitle_nonempty].
Qed.

Lemma cards_have_bio_witness :
  card_bio
    (instructorCard
       (mkBiosData (Some [mkBioEntry "Ada Lovelace" (Some EmptyString)
                            (Some EmptyString)]))
       (mkPerson "Ada Lovelace" "ada@ucsc.edu" "7")) <> EmptyString /\
  card_title
    (instructorCard
       (mkBiosData (Some [mkBioEntry "Ada Lovelace" (Some EmptyString)
                            (Some EmptyString)]))
       (mkPerson "Ada Lovelace" "ada@ucsc.edu" "7")) <> Some EmptyString.
Proof.
  apply (cards_have_bio
           (mkCanvasStaffData
              (Some [mkPerson "Ada Lovelace" "ada@ucsc.edu" "7"])
              None None None)
           (mkBiosData (Some [mkBioEntry "Ada Lovelace" (Some EmptyString)
                                (Some EmptyString)]))).
  simpl. now left.
Defined.

Lemma find_ext_bool {A : Type} (f g : A -> bool) (l : list A) :
  (forall x, f x = g x) -> find f l = find g l.
Proof.
  intros H. induction l as [| x l IH]; simpl; [reflexivity |].
  now rewrite H, IH.
Qed.

(** The lookup sees a name only through its normalized form: two
    spellings with the same lower-cased, trimmed form get the same
    answer from every bios file, and so the same title and bio on the
    card. *)
Theorem lookup_by_normalized_name (data : BiosData) (name1 name2 : string) :
  normalize name1 = normalize name2 ->
  getInstructorInfo data name1 = getInstructorInfo data name2.
Proof.
  intros H. unfold getInstructorInfo.
  rewrite (find_ext_bool (nameMatches name1) (nameMatches name2)).
  - reflexivity.
  - intros e. unfold nameMatches. now rewrite H.
Qed.

Lemma lookup_by_normalized_name_witness :
  getInstructorInfo
    (mkBiosData (Some [mkBioEntry "Jane Doe" None (Some "Custom bio")]))
    "  JANE DOE" =
  getInstructorInfo
    (mkBiosData (Some [mkBioEntry "Jane Doe" None (Some "Custom bio")]))
    "jane doe ".
Proof.
  apply lookup_by_normalized_name. vm_compute. reflexivity.
Defined.

(** Without a bios file to draw from (the [instructor_bios] key missing,
    or its list empty) every roster instructor is rendered with the
    placeholder bio and no title, name and email untouched. *)
Theorem cards_without_bios (data : BiosData) (p : Person) :
  biosOf data = [] ->
  instructorCard data p =
    {| card_name := person_name p;
       card_title := None;
       card_email := person_email p;
       card_bio := "Bio not available for this instructor.";
       card_image := getAvatarUrl (person_name p) (person_email p) |}.
Proof.
  intros H. unfold instructorCard, getInstructorInfo. rewrite H. reflexivity.
Qed.

Lemma cards_without_bios_witness :
  card_bio (instructorCard (mkBiosData None)
              (mkPerson "Ada Lovelace" "ada@ucsc.edu" "7"))
  = "Bio not available for this instructor.".
Proof.
  rewrite (cards_without_bios (mkBiosData None)
             (mkPerson "Ada Lovelace" "ada@ucsc.edu" "7")); reflexivity.
Defined.

(** A curated entry reaches the page as written: when the first entry
    matching the instructor's name has a non-empty bio, the card shows
    exactly that bio, and it shows the entry's title exactly when the
    title is present and not empty. *)
Theorem curated_entry_shown (data : BiosData) (p : Person) (e : BioEntry)
  (bio : string) :
  find (nameMatches (person_name p)) (biosOf data) = Some e ->
  entry_bio e = Some bio ->
  bio <> EmptyString ->
  card_bio (instructorCard data p) = bio /\
  (forall title, entry_title e = Some title -> title <> EmptyString ->
                 card_title (instructorCard data p) = Some title) /\
  (entry_title e = None \/ entry_title e = Some EmptyString ->
   card_title (instructorCard data p) = None).
Proof.
  intros F B Hne. unfold instructorCard, getInstructorInfo. rewrite F. simpl.
  rewrite B. split; [| split].
  - destruct bio; [now elim Hne | reflexivity].
  - intros title T Ht. rewrite T. destruct title; [now elim Ht | reflexivity].
  - intros [T | T]; rewrite T; reflexivity.
Qed.

Lemma curated_entry_shown_witness :
  card_bio
    (instructorCard
       (mkBiosData (Some [mkBioEntry "Ada Lovelace" (Some "Professor")
                            (Some "Custom bio")]))
       (mkPerson " ada lovelace" "ada@ucsc.edu" "7")) = "Custom bio".
Proof.
  apply (curated_entry_shown
           (mkBiosData (Some [mkBioEntry "Ada Lovelace" (Some "Professor")
                                (Some "Custom bio")]))
           (mkPerson " ada lovelace" "ada@ucsc.edu" "7")
           (mkBioEntry "Ada Lovelace" (Some "Professor") (Some "Custom bio"))
           "Custom bio").
  - vm_compute. reflexivity.
  - reflexivity.
  - discriminate.
Defined.

(** ** The normalized form of a name *)

Module JsStringMore.
Import JsString.

Lemma lowerChar_idem (c : ascii) : lowerChar (lowerChar c) = lowerChar c.
Proof. destruct c as [[] [] [] [] [] [] [] []]; vm_compute; reflexivity. Qed.

Lemma toLowerCase_idem (s : string) :
  toLowerCase (toLowerCase s) = toLowerCase s.
Proof.
  induction s as [| c r IH]; simpl; [reflexivity |].
  now rewrite lowerChar_idem, IH.
Qed.

Lemma trimEnd_idem (s : string) : trimEnd (trimEnd s) = trimEnd s.
Proof.
  induction s as [| c r IH]; simpl; [reflexivity |].
  destruct (trimEnd r) as [| d r'] eqn:E.
  - destruct (isWhiteSpace c) eqn:W; simpl; [reflexivity |].
    now rewrite W.
  - change (trimEnd (String c (String d r')) = String c (String d r')).
    simpl trimEnd at 1. fold trimEnd. 
    change (match trimEnd r' with
            | EmptyString => if isWhiteSpace d then EmptyString
                             else String d EmptyString
            | String a s0 => String d (String a s0)
            end) with (trimEnd (String d r')).
    rewrite IH. reflexivity.
Qed.

Lemma trimStart_shape (s : string) :
  trimStart s = EmptyString \/
  exists c r, trimStart s = String c r /\ isWhiteSpace c = false.
Proof.
  induction s as [| c r IH]; simpl; [now left |].
  destruct (isWhiteSpace c) eqn:W; [exact IH |].
  right. now exists c, r.
Qed.

Lemma trimEnd_head (c : ascii) (r : string) :
  isWhiteSpace c = false -> exists r', trimEnd (String c r) = String c r'.
Proof.
  intros W. simpl. destruct (trimEnd r) as [| d r'].
  - rewrite W. now exists EmptyString.
  - now exists (String d r').
Qed.

Lemma trim_idem (s : string) : trim (trim s) = trim s.
Proof.
  unfold trim. destruct (trimStart_shape s) as [E | [c [r [E W]]]]; rewrite E.
  - reflexivity.
  - destruct (trimEnd_head c r W) as [r' E']. rewrite E'.
    simpl trimStart. rewrite W. rewrite <- E'. apply trimEnd_idem.
Qed.

End JsStringMore.

(** Normalizing is idempotent: [s.toLowerCase().trim()] applied to its own
    result changes nothing, so a name already stored lower-cased and
    trimmed is its own key. *)
Theorem normalize_idempotent (s : string) :
  normalize (normalize s) = normalize s.
Proof.
  unfold normalize.
  rewrite JsStringFacts.trim_toLowerCase.
  rewrite JsStringMore.trim_idem.
  rewrite <- JsStringFacts.trim_toLowerCase.
  now rewrite JsStringMore.toLowerCase_idem.
Qed.

(** ** Strings as lists of code units *)

Module StringFacts.

Lemma chars_app (a b : string) :
  list_ascii_of_string (a ++ b) =
    (list_ascii_of_string a ++ list_ascii_of_string b)%list.
Proof. induction a as [| c a IH]; simpl; [reflexivity | now rewrite IH]. Qed.

Lemma chars_inj (a b : string) :
  list_ascii_of_string a = list_ascii_of_string b -> a = b.
Proof.
  intros H. rewrite <- (string_of_list_ascii_of_string a),
    <- (string_of_list_ascii_of_string b). now rewrite H.
Qed.

Lemma chars_length (a : string) :
  String.length a = List.length (list_ascii_of_string a).
Proof. induction a as [| c a IH]; simpl; [reflexivity | now rewrite IH]. Qed.

Lemma append_length (a b : string) :
  String.length (a ++ b) = String.length a + String.length b.
Proof. induction a as [| c a IH]; simpl; [reflexivity | now rewrite IH]. Qed.

Lemma append_assoc (a b c : string) : (a ++ b) ++ c = a ++ (b ++ c).
Proof. induction a as [| x a IH]; simpl; [reflexivity | now rewrite IH]. Qed.

Lemma append_nil_r (a : string) : a ++ EmptyString = a.
Proof. induction a as [| x a IH]; simpl; [reflexivity | now rewrite IH]. Qed.

Lemma append_inv_head (p a b : string) : p ++ a = p ++ b -> a = b.
Proof.
  induction p as [| x p IH]; simpl; intros H; [exact H |].
  apply IH. now inversion H.
Qed.

Lemma append_inv_tail (a b t : string) : a ++ t = b ++ t -> a = b.
Proof.
  intros H. apply chars_inj.
  apply (f_equal list_ascii_of_string) in H. rewrite !chars_app in H.
  now apply app_inv_tail in H.
Qed.

End StringFacts.

(** ** Avatar URLs: what the encoding of the name guarantees *)

Module UriFacts.
Import Uri.

Lemma encodeChar_safe (c : ascii) :
  forallb (fun d => isUnreserved d || Ascii.eqb d "%")
    (list_ascii_of_string (encodeChar c)) = true.
Proof. destruct c as [[] [] [] [] [] [] [] []]; vm_compute; reflexivity. Qed.

Lemma encodeURIComponent_safe (s : string) :
  forallb (fun d => isUnreserved d || Ascii.eqb d "%")
    (list_ascii_of_string (encodeURIComponent s)) = true.
Proof.
  induction s as [| c r IH]; simpl; [reflexivity |].
  rewrite StringFacts.chars_app, forallb_app, encodeChar_safe, IH.
  reflexivity.
Qed.

Lemma encodeURIComponent_app (a b : string) :
  encodeURIComponent (a ++ b) = encodeURIComponent a ++ encodeURIComponent b.
Proof.
  induction a as [| c a IH]; simpl; [reflexivity |].
  now rewrite IH, StringFacts.append_assoc.
Qed.

Lemma decodeChar_encodeChar (c : ascii) (r : string) :
  UriDecode.decodeChar (encodeChar c ++ r) = Some (c, r).
Proof. destruct c as [[] [] [] [] [] [] [] []]; vm_compute; reflexivity. Qed.

Lemma encodeURIComponent_inj (a b : string) :
  encodeURIComponent a = encodeURIComponent b -> a = b.
Proof.
  revert b. induction a as [| c a IH]; intros [| d b] H; simpl in H.
  - reflexivity.
  - apply (f_equal UriDecode.decodeChar) in H.
    rewrite decodeChar_encodeChar in H. discriminate.
  - apply (f_equal UriDecode.decodeChar) in H.
    rewrite decodeChar_encodeChar in H. discriminate.
  - apply (f_equal UriDecode.decodeChar) in H.
    rewrite !decodeChar_encodeChar in H. inversion H; subst.
    f_equal. now apply IH.
Qed.

Lemma encodeChar_length (c : ascii) :
  1 <= String.length (encodeChar c) <= 6 /\
  (String.length (encodeChar c) = 1 <-> isUnreserved c = true) /\
  (isUnreserved c = true -> encodeChar c = String c EmptyString).
Proof.
  destruct c as [[] [] [] [] [] [] [] []]; vm_compute;
    (split; [split; repeat constructor |]);
    (split; [split; intros H; (reflexivity || discriminate) |]);
    intros H; (reflexivity || discriminate).
Qed.

Lemma encodeURIComponent_length (s : string) :
  String.length s <= String.length (encodeURIComponent s) <=
    6 * String.length s.
Proof.
  induction s as [| c r IH]; simpl; [lia |].
  rewrite StringFacts.append_length.
  pose proof (encodeChar_length c) as [Hc _]. lia.
Qed.

End UriFacts.

(** The name cannot reach the structure of the avatar URL: every
    character [encodeURIComponent] puts between [?name=] and
    [&background=random&size=400] is an unreserved character or a percent
    sign, so no [&], [=], [#], [?], [/], [+] or space from a name appears
    there. *)
Theorem avatar_name_escaped (name email : string) (c : ascii) :
  In c (list_ascii_of_string (Uri.encodeURIComponent name)) ->
  getAvatarUrl name email =
    "https://ui-avatars.com/api/?name=" ++ Uri.encodeURIComponent name
      ++ "&background=random&size=400" /\
  (Uri.isUnreserved c = true \/ c = "%"%char) /\
  ~ In c ["&"; "="; "#"; "?"; "/"; "+"; " "]%char.
Proof.
  intros Hin. split; [reflexivity |].
  pose proof (UriFacts.encodeURIComponent_safe name) as Hs.
  rewrite forallb_forall in Hs. specialize (Hs c Hin).
  apply orb_true_iff in Hs.
  assert (Uri.isUnreserved c = true \/ c = "%"%char) as Hc.
  { destruct Hs as [Hs | Hs]; [now left | right].
    now apply Ascii.eqb_eq in Hs. }
  split; [exact Hc |].
  intros Hbad. simpl in Hbad.
  destruct Hc as [Hc | Hc];
    repeat (destruct Hbad as [<- | Hbad]; [vm_compute in Hc; discriminate |]);
    exact Hbad.
Qed.

Lemma avatar_name_escaped_witness :
  ~ In "%"%char ["&"; "="; "#"; "?"; "/"; "+"; " "]%char.
Proof.
  apply (avatar_name_escaped "A&B" "a@ucsc.edu" "%"%char).
  vm_compute. right. now left.
Defined.

(** Different names get different avatar URLs, whatever the emails:
    nothing of a name is lost in the encoding. *)
Theorem avatar_url_distinguishes_names (name1 name2 email1 email2 : string) :
  name1 <> name2 ->
  getAvatarUrl name1 email1 <> getAvatarUrl name2 email2.
Proof.
  intros Hne H. apply Hne. unfold getAvatarUrl in H.
  apply StringFacts.append_inv_head in H.
  apply StringFacts.append_inv_tail in H.
  now apply UriFacts.encodeURIComponent_inj.
Qed.

Lemma avatar_url_distinguishes_names_witness :
  getAvatarUrl "A B" "a@ucsc.edu" <> getAvatarUrl "A%20B" "a@ucsc.edu".
Proof.
  apply avatar_url_distinguishes_names. discriminate.
Defined.


(** A name is left as it is by the encoding exactly when all its
    characters are unreserved ([A-Z a-z 0-9 - _ . ! ~ * ' ( )]). *)
Theorem plain_names_unchanged (name : string) :
  Uri.encodeURIComponent name = name <->
  forall c, In c (list_ascii_of_string name) -> Uri.isUnreserved c = true.
Proof.
  induction name as [| c r IH]; simpl.
  - split; [intros _ d [] | reflexivity].
  - pose proof (UriFacts.encodeChar_length c) as (Hlen & Hone & Hkeep).
    pose proof (UriFacts.encodeURIComponent_length r) as Hr.
    split.
    + intros H.
      assert (String.length (Uri.encodeChar c) = 1) as L.
      { apply (f_equal String.length) in H.
        rewrite StringFacts.append_length in H. simpl in H. lia. }
      apply Hone in L. rewrite (Hkeep L) in H. simpl in H.
      inversion H as [Hr']. rewrite Hr'.
      intros d [<- | Hd]; [exact L | now apply IH].
    + intros H. rewrite (Hkeep (H c (or_introl eq_refl))). simpl.
      f_equal. apply IH. intros d Hd. apply H. now right.
Qed.

(** ** More on the listener list *)

Module IframePreloaderMore.
Import IframePreloader.
Local Open Scope list_scope.

Lemma unsubscribe_filter (keep : Callback -> bool) (callback : Callback)
  (l : Listeners) :
  keep callback = false ->
  filter keep (unsubscribe callback l) = filter keep l.
Proof.
  intros Hk. induction l as [| c r IH]; [reflexivity |].
  rewrite IframePreloaderFacts.unsubscribe_cons.
  destruct (Nat.eqb_spec c callback) as [-> | Hne]; simpl.
  - now rewrite Hk.
  - now rewrite IH.
Qed.

Lemma unsubscribe_in_other (callback c : Callback) (l : Listeners) :
  c <> callback -> (In c (unsubscribe callback l) <-> In c l).
Proof.
  intros Hne. induction l as [| d r IH]; [reflexivity |].
  rewrite IframePreloaderFacts.unsubscribe_cons.
  destruct (Nat.eqb_spec d callback) as [-> | Hd]; simpl.
  - split; [now right | intros [E | H]; [congruence | exact H]].
  - now rewrite IH.
Qed.

Lemma unsubscribe_comm (a b : Callback) (l : Listeners) :
  unsubscribe a (unsubscribe b l) = unsubscribe b (unsubscribe a l).
Proof.
  induction l as [| c r IH]; [reflexivity |].
  rewrite (IframePreloaderFacts.unsubscribe_cons b c r),
    (IframePreloaderFacts.unsubscribe_cons a c r).
  destruct (Nat.eqb_spec c b) as [Eb | Nb], (Nat.eqb_spec c a) as [Ea | Na];
    subst; rewrite ?IframePreloaderFacts.unsubscribe_cons.
  - reflexivity.
  - now rewrite Nat.eqb_refl.
  - now rewrite Nat.eqb_refl.
  - destruct (Nat.eqb_spec c a); [congruence |].
    destruct (Nat.eqb_spec c b); [congruence |].
    now rewrite IH.
Qed.

(** Subscribing one callback after the other. *)
Lemma subscribe_all (callbacks : list Callback) (l : Listeners) :
  fold_left (fun acc c => fst (subscribeToIframeLoad c acc)) callbacks l =
    l ++ callbacks.
Proof.
  revert l. induction callbacks as [| c cs IH]; intros l; simpl.
  - now rewrite app_nil_r.
  - rewrite IH, <- app_assoc. reflexivity.
Qed.

Lemma unsubscribe_all_perm (a b : list Callback) (l : Listeners) :
  Permutation a b ->
  fold_left (fun acc c => unsubscribe c acc) a l =
    fold_left (fun acc c => unsubscribe c acc) b l.
Proof.
  intros P. revert l.
  induction P as [| x a b P IH | x y a | a b c P1 IH1 P2 IH2];
    intros l; simpl.
  - reflexivity.
  - apply IH.
  - now rewrite unsubscribe_comm.
  - now rewrite IH1, IH2.
Qed.

Lemma unsubscribe_all_rev (callbacks : list Callback) (l : Listeners) :
  NoDup callbacks ->
  (forall c, In c callbacks -> ~ In c l) ->
  fold_left (fun acc c => unsubscribe c acc) (rev callbacks) (l ++ callbacks)
  = l.
Proof.
  induction callbacks as [| c cs IH] using rev_ind; intros Hnd Hfresh.
  - simpl. apply app_nil_r.
  - rewrite rev_app_distr. simpl. rewrite app_assoc.
    apply NoDup_remove in Hnd. rewrite app_nil_r in Hnd.
    destruct Hnd as [Hnd Hc].
    rewrite IframePreloaderFacts.unsubscribe_push_fresh.
    + apply IH; [exact Hnd |].
      intros d Hd. apply Hfresh. apply in_or_app. now left.
    + intros Hin. apply in_app_or in Hin. destruct Hin as [Hin | Hin].
      * apply (Hfresh c); [apply in_or_app; right; now left | exact Hin].
      * contradiction.
Qed.

End IframePreloaderMore.

(** Unsubscribing one callback leaves every other listener as it was:
    the other callbacks keep their order and their number of occurrences,
    and each of them is in the list afterwards exactly if it was
    before. *)
Theorem unsubscribe_leaves_others (callback : IframePreloader.Callback)
  (loadListeners : IframePreloader.Listeners) :
  filter (fun c => negb (Nat.eqb c callback))
    (IframePreloader.unsubscribe callback loadListeners) =
  filter (fun c => negb (Nat.eqb c callback)) loadListeners /\
  forall c, c <> callback ->
            (In c (IframePreloader.unsubscribe callback loadListeners) <->
             In c loadListeners).
Proof.
  split.
  - apply IframePreloaderMore.unsubscribe_filter. now rewrite Nat.eqb_refl.
  - intros c Hne. now apply IframePreloaderMore.unsubscribe_in_other.
Qed.

Lemma unsubscribe_leaves_others_witness :
  In 2 (IframePreloader.unsubscribe 1 [1; 2; 1]) <-> In 2 [1; 2; 1].
Proof.
  apply (proj2 (unsubscribe_leaves_others 1 [1; 2; 1])). discriminate.
Defined.

(** Two unsubscribe functions can be called in either order: the
    listener list that results is the same. *)
Theorem unsubscribe_commutes (a b : IframePreloader.Callback)
  (loadListeners : IframePreloader.Listeners) :
  IframePreloader.unsubscribe a
    (IframePreloader.unsubscribe b loadListeners) =
  IframePreloader.unsubscribe b
    (IframePreloader.unsubscribe a loadListeners).
Proof. apply IframePreloaderMore.unsubscribe_comm. Qed.

(** Any number of pages can come and go: when distinct callbacks that are
    new to the list are subscribed one after the other and then all
    unsubscribed, in whatever order, the listener list is back to what it
    was before the first subscription. *)
Theorem subscribers_leave_in_any_order
  (callbacks leaving : list IframePreloader.Callback)
  (loadListeners : IframePreloader.Listeners) :
  NoDup callbacks ->
  (forall c, In c callbacks -> ~ In c loadListeners) ->
  Permutation callbacks leaving ->
  fold_left (fun acc c => IframePreloader.unsubscribe c acc) leaving
    (fold_left
       (fun acc c => fst (IframePreloader.subscribeToIframeLoad c acc))
       callbacks loadListeners)
  = loadListeners.
Proof.
  intros Hnd Hfresh P.
  rewrite IframePreloaderMore.subscribe_all.
  rewrite (IframePreloaderMore.unsubscribe_all_perm leaving (rev callbacks)).
  - now apply IframePreloaderMore.unsubscribe_all_rev.
  - rewrite <- P. apply Permutation_rev.
Qed.

Lemma subscribers_leave_in_any_order_witness :
  fold_left (fun acc c => IframePreloader.unsubscribe c acc) [4; 3; 5]
    (fold_left
       (fun acc c => fst (IframePreloader.subscribeToIframeLoad c acc))
       [3; 4; 5] [1; 2])
  = [1; 2].
Proof.
  apply (subscribers_leave_in_any_order [3; 4; 5] [4; 3; 5] [1; 2]).
  - repeat constructor; simpl; intuition discriminate.
  - intros c Hc Hl. simpl in Hc, Hl.
    destruct Hc as [<- | [<- | [<- | []]]];
      destruct Hl as [Hl | [Hl | []]]; discriminate.
  - apply perm_swap.
Defined.

(** ** Load events and the pages that wait for them *)

Module IframeLoadFacts.
Import IframeLoad.

Section Pages.

Variable env : ImportMetaEnv.
Variable watched : IframePreloader.Callback -> string.

Local Abbreviation notifyAll :=
  (IframePreloader.notifyListeners (listener env watched)).

Lemma listener_frame (c : IframePreloader.Callback) (s : Store) :
  iframeLoadState (listener env watched c s) = iframeLoadState s /\
  loadListeners (listener env watched c s) = loadListeners s.
Proof.
  unfold listener.
  destruct (isIframeLoaded env (iframeLoadState s) (watched c)); now split.
Qed.

Lemma notifyAll_frame (l : IframePreloader.Listeners) (s : Store) :
  iframeLoadState (notifyAll l s) = iframeLoadState s /\
  loadListeners (notifyAll l s) = loadListeners s.
Proof.
  unfold IframePreloader.notifyListeners. revert s.
  induction l as [| c r IH]; intros s; simpl; [now split |].
  destruct (IH (listener env watched c s)) as [H1 H2].
  destruct (listener_frame c s) as [H3 H4].
  split; congruence.
Qed.

Lemma listener_keeps_false (c page : IframePreloader.Callback) (s : Store) :
  isLoading s page = false -> isLoading (listener env watched c s) page = false.
Proof.
  intros H. unfold listener.
  destruct (isIframeLoaded env (iframeLoadState s) (watched c)); simpl;
    [| exact H].
  destruct (Nat.eqb page c); [reflexivity | exact H].
Qed.

Lemma notifyAll_keeps_false (l : IframePreloader.Listeners)
  (page : IframePreloader.Callback) (s : Store) :
  isLoading s page = false -> isLoading (notifyAll l s) page = false.
Proof.
  unfold IframePreloader.notifyListeners. revert s.
  induction l as [| c r IH]; intros s H; simpl; [exact H |].
  apply IH. now apply listener_keeps_false.
Qed.

(** A subscribed page whose document is loaded is told so. *)
Lemma notifyAll_reaches (l : IframePreloader.Listeners)
  (page : IframePreloader.Callback) (s : Store) :
  In page l ->
  isIframeLoaded env (iframeLoadState s) (watched page) = true ->
  isLoading (notifyAll l s) page = false.
Proof.
  unfold IframePreloader.notifyListeners. revert s.
  induction l as [| c r IH]; intros s Hin Hl; [destruct Hin |].
  simpl. destruct Hin as [-> | Hin].
  - apply (notifyAll_keeps_false r). unfold listener. rewrite Hl. simpl.
    now rewrite Nat.eqb_refl.
  - apply IH; [exact Hin |].
    now rewrite (proj1 (listener_frame c s)).
Qed.

(** A page whose document is not loaded is left alone. *)
Lemma notifyAll_unloaded (l : IframePreloader.Listeners)
  (page : IframePreloader.Callback) (s : Store) :
  isIframeLoaded env (iframeLoadState s) (watched page) = false ->
  isLoading (notifyAll l s) page = isLoading s page.
Proof.
  unfold IframePreloader.notifyListeners. revert s.
  induction l as [| c r IH]; intros s Hl; simpl; [reflexivity |].
  rewrite IH.
  - unfold listener.
    destruct (isIframeLoaded env (iframeLoadState s) (watched c)) eqn:E;
      simpl; [| reflexivity].
    destruct (Nat.eqb_spec page c) as [-> | _]; [congruence | reflexivity].
  - now rewrite (proj1 (listener_frame c s)).
Qed.

(** Setting a flag never takes a loaded document back. *)
Lemma isIframeLoaded_set_calendar (st : IframeLoadState) (url : string) :
  isIframeLoaded env st url = true ->
  isIframeLoaded env
    {| calendarLoaded := true; officeHoursLoaded := officeHoursLoaded st |}
    url = true.
Proof.
  unfold isIframeLoaded. simpl.
  destruct (String.eqb url (CALENDAR_URL env)); [reflexivity |].
  destruct (String.eqb url (OFFICE_HOURS_URL env)); intros H; exact H.
Qed.

Lemma isIframeLoaded_set_officeHours (st : IframeLoadState) (url : string) :
  isIframeLoaded env st url = true ->
  isIframeLoaded env
    {| calendarLoaded := calendarLoaded st; officeHoursLoaded := true |}
    url = true.
Proof.
  unfold isIframeLoaded. simpl.
  destruct (String.eqb url (CALENDAR_URL env)); [intros H; exact H |].
  destruct (String.eqb url (OFFICE_HOURS_URL env)); [reflexivity |].
  intros H; exact H.
Qed.

Lemma step_loaded (s : Store) (e : Event) (url : string) :
  isIframeLoaded env (iframeLoadState s) url = true ->
  isIframeLoaded env (iframeLoadState (step env watched s e)) url = true.
Proof.
  intros H. destruct e as [| | u | p | p | p | p]; simpl.
  - unfold calendarOnload, notify. rewrite (proj1 (notifyAll_frame _ _)).
    simpl. now apply isIframeLoaded_set_calendar.
  - unfold officeHoursOnload, notify. rewrite (proj1 (notifyAll_frame _ _)).
    simpl. now apply isIframeLoaded_set_officeHours.
  - unfold preloadOnload, notify. rewrite (proj1 (notifyAll_frame _ _)).
    destruct (String.eqb u (CALENDAR_URL env)); simpl;
      [now apply isIframeLoaded_set_calendar |].
    destruct (String.eqb u (OFFICE_HOURS_URL env)); simpl;
      [now apply isIframeLoaded_set_officeHours | exact H].
  - exact H.
  - exact H.
  - unfold effect.
    destruct (isIframeLoaded env (iframeLoadState s) (watched p)); exact H.
  - exact H.
Qed.

Lemma step_keeps_false (s : Store) (e : Event)
  (page : IframePreloader.Callback) :
  e <> Rendered page ->
  isLoading s page = false ->
  isLoading (step env watched s e) page = false.
Proof.
  intros He H. destruct e as [| | u | p | p | p | p]; simpl.
  - now apply notifyAll_keeps_false.
  - now apply notifyAll_keeps_false.
  - apply notifyAll_keeps_false.
    destruct (String.eqb u (CALENDAR_URL env)); [exact H |].
    destruct (String.eqb u (OFFICE_HOURS_URL env)); exact H.
  - destruct (Nat.eqb page p); [reflexivity | exact H].
  - assert (page <> p) as Hne by congruence.
    apply Nat.eqb_neq in Hne. now rewrite Hne.
  - unfold effect.
    destruct (isIframeLoaded env (iframeLoadState s) (watched p)); simpl;
      [| exact H].
    destruct (Nat.eqb page p); [reflexivity | exact H].
  - exact H.
Qed.

End Pages.

End IframeLoadFacts.

(** A document that has been reported loaded is reported loaded ever
    after: no load event, render, effect or cleanup resets a flag of
    [iframeLoadState]. *)
Theorem loaded_stays_loaded (env : IframeLoad.ImportMetaEnv)
  (watched : IframePreloader.Callback -> string)
  (events : list IframeLoad.Event) (s : IframeLoad.Store) (url : string) :
  IframeLoad.isIframeLoaded env (IframeLoad.iframeLoadState s) url = true ->
  IframeLoad.isIframeLoaded env
    (IframeLoad.iframeLoadState (IframeLoad.run env watched events s)) url
  = true.
Proof.
  unfold IframeLoad.run. revert s.
  induction events as [| e events IH]; intros s H; simpl; [exact H |].
  apply IH. now apply IframeLoadFacts.step_loaded.
Qed.

Lemma loaded_stays_loaded_witness :
  IframeLoad.isIframeLoaded (IframeLoad.mkEnv None None)
    (IframeLoad.iframeLoadState
       (IframeLoad.run (IframeLoad.mkEnv None None)
          (fun _ => IframeLoad.CALENDAR_URL (IframeLoad.mkEnv None None))
          [ IframeLoad.Rendered 1; IframeLoad.EffectRan 1;
            IframeLoad.OfficeHoursIframeLoaded; IframeLoad.CleanedUp 1 ]
          (IframeLoad.mkStore (IframeLoad.mkLoadState true false) []
             (fun _ => false))))
    (IframeLoad.CALENDAR_URL (IframeLoad.mkEnv None None))
  = true.
Proof.
  apply loaded_stays_loaded. reflexivity.
Defined.

(** Once a page has hidden its loading skeleton it stays hidden: nothing
    but a first render of that page sets its [isLoading] to true. *)
Theorem skeleton_stays_hidden (env : IframeLoad.ImportMetaEnv)
  (watched : IframePreloader.Callback -> string)
  (events : list IframeLoad.Event) (s : IframeLoad.Store)
  (page : IframePreloader.Callback) :
  (forall e, In e events -> e <> IframeLoad.Rendered page) ->
  IframeLoad.isLoading s page = false ->
  IframeLoad.isLoading (IframeLoad.run env watched events s) page = false.
Proof.
  unfold IframeLoad.run. revert s.
  induction events as [| e events IH]; intros s He H; simpl; [exact H |].
  apply IH.
  - intros e' Hin. apply He. now right.
  - apply IframeLoadFacts.step_keeps_false; [| exact H].
    apply He. now left.
Qed.

Lemma skeleton_stays_hidden_witness :
  IframeLoad.isLoading
    (IframeLoad.run (IframeLoad.mkEnv None None)
       (fun _ => IframeLoad.CALENDAR_URL (IframeLoad.mkEnv None None))
       [ IframeLoad.Rendered 2; IframeLoad.EffectRan 2;
         IframeLoad.CalendarIframeLoaded ]
       (IframeLoad.mkStore (IframeLoad.mkLoadState false false) [1]
          (fun _ => false)))
    1 = false.
Proof.
  apply skeleton_stays_hidden; [| reflexivity].
  intros e [<- | [<- | [<- | []]]]; discriminate.
Defined.

(** [preloadIframe(url)] and [isIframeLoaded(url)] agree: after the
    iframe preloaded for [url] has loaded, [url] is reported loaded if it
    is one of the two known documents, also when both constants hold the
    same URL; any other URL is still reported not loaded. *)
Theorem preload_marks_its_url (env : IframeLoad.ImportMetaEnv)
  (watched : IframePreloader.Callback -> string) (s : IframeLoad.Store)
  (url : string) :
  IframeLoad.isIframeLoaded env
    (IframeLoad.iframeLoadState (IframeLoad.preloadOnload env watched url s))
    url =
  (String.eqb url (IframeLoad.CALENDAR_URL env) ||
   String.eqb url (IframeLoad.OFFICE_HOURS_URL env))%bool.
Proof.
  unfold IframeLoad.preloadOnload, IframeLoad.notify.
  rewrite (proj1 (IframeLoadFacts.notifyAll_frame env watched _ _)).
  unfold IframeLoad.isIframeLoaded.
  destruct (String.eqb url (IframeLoad.CALENDAR_URL env)); simpl;
    [reflexivity |].
  destruct (String.eqb url (IframeLoad.OFFICE_HOURS_URL env)); reflexivity.
Qed.

(** The two iframes of [useIframePreloader]: when the calendar iframe has
    loaded, the calendar URL is reported loaded; when the office hours
    iframe has loaded, the office hours URL is reported loaded provided
    the two URLs differ.  If both constants are configured to the same
    URL, [isIframeLoaded] reads the calendar flag for it, and the load of
    the office hours iframe goes unnoticed. *)
Theorem preloader_marks_loaded (env : IframeLoad.ImportMetaEnv)
  (watched : IframePreloader.Callback -> string) (s : IframeLoad.Store) :
  IframeLoad.isIframeLoaded env
    (IframeLoad.iframeLoadState (IframeLoad.calendarOnload env watched s))
    (IframeLoad.CALENDAR_URL env) = true /\
  (IframeLoad.CALENDAR_URL env <> IframeLoad.OFFICE_HOURS_URL env ->
   IframeLoad.isIframeLoaded env
     (IframeLoad.iframeLoadState (IframeLoad.officeHoursOnload env watched s))
     (IframeLoad.OFFICE_HOURS_URL env) = true) /\
  (IframeLoad.CALENDAR_URL env = IframeLoad.OFFICE_HOURS_URL env ->
   IframeLoad.isIframeLoaded env
     (IframeLoad.iframeLoadState (IframeLoad.officeHoursOnload env watched s))
     (IframeLoad.OFFICE_HOURS_URL env) =
   IframeLoad.calendarLoaded (IframeLoad.iframeLoadState s)).
Proof.
  unfold IframeLoad.calendarOnload, IframeLoad.officeHoursOnload,
    IframeLoad.notify.
  rewrite !(proj1 (IframeLoadFacts.notifyAll_frame env watched _ _)).
  unfold IframeLoad.isIframeLoaded. simpl.
  rewrite !String.eqb_refl.
  split; [reflexivity |]. split.
  - intros Hne. apply not_eq_sym in Hne. apply String.eqb_neq in Hne.
    now rewrite Hne.
  - intros <-. now rewrite String.eqb_refl.
Qed.

Lemma preloader_marks_loaded_witness :
  IframeLoad.isIframeLoaded (IframeLoad.mkEnv None None)
    (IframeLoad.iframeLoadState
       (IframeLoad.officeHoursOnload (IframeLoad.mkEnv None None)
          (fun _ => IframeLoad.OFFICE_HOURS_URL (IframeLoad.mkEnv None None))
          (IframeLoad.mkStore (IframeLoad.mkLoadState false false) [1]
             (fun _ => true))))
    (IframeLoad.OFFICE_HOURS_URL (IframeLoad.mkEnv None None)) = true /\
  IframeLoad.isIframeLoaded (IframeLoad.mkEnv (Some "same") (Some "same"))
    (IframeLoad.iframeLoadState
       (IframeLoad.officeHoursOnload
          (IframeLoad.mkEnv (Some "same") (Some "same"))
          (fun _ => "same")
          (IframeLoad.mkStore (IframeLoad.mkLoadState false false) [1]
             (fun _ => true))))
    (IframeLoad.OFFICE_HOURS_URL
       (IframeLoad.mkEnv (Some "same") (Some "same"))) = false.
Proof.
  split.
  - apply (proj1 (proj2 (preloader_marks_loaded (IframeLoad.mkEnv None None)
                           (fun _ => IframeLoad.OFFICE_HOURS_URL
                                       (IframeLoad.mkEnv None None))
                           (IframeLoad.mkStore
                              (IframeLoad.mkLoadState false false) [1]
                              (fun _ => true))))).
    apply String.eqb_neq. reflexivity.
  - apply (proj2 (proj2 (preloader_marks_loaded
                           (IframeLoad.mkEnv (Some "same") (Some "same"))
                           (fun _ => "same")
                           (IframeLoad.mkStore
                              (IframeLoad.mkLoadState false false) [1]
                              (fun _ => true))))).
    reflexivity.
Defined.

Module IframeLoadInvariant.
Import IframeLoad.

Section MountedPage.

Variable env : ImportMetaEnv.
Variable watched : IframePreloader.Callback -> string.
Variable page : IframePreloader.Callback.

Local Abbreviation informed := (IframeLoad.informed env watched page).

Lemma informed_after_effect (s : Store) :
  informed (step env watched s (EffectRan page)).
Proof.
  unfold IframeLoad.informed. simpl. unfold effect.
  destruct (isIframeLoaded env (iframeLoadState s) (watched page)) eqn:E;
    simpl; rewrite E.
  - split; [intros _; now rewrite Nat.eqb_refl | discriminate].
  - split; [discriminate | intros _].
    apply in_or_app. right. now left.
Qed.

(** A load event: new flags, then every listener is called. *)
Lemma informed_after_load (s : Store) (st : IframeLoadState) :
  (forall url, isIframeLoaded env (iframeLoadState s) url = true ->
               isIframeLoaded env st url = true) ->
  informed s ->
  informed (notify env watched (setLoadState s st)).
Proof.
  intros Hmono [Hloaded Hsub]. unfold IframeLoad.informed, notify.
  destruct (IframeLoadFacts.notifyAll_frame env watched
              (loadListeners (setLoadState s st)) (setLoadState s st))
    as [Hf Hl].
  rewrite Hf, Hl. simpl. split.
  - intros Hnow.
    destruct (isIframeLoaded env (iframeLoadState s) (watched page)) eqn:E.
    + apply IframeLoadFacts.notifyAll_keeps_false. simpl. now apply Hloaded.
    + apply IframeLoadFacts.notifyAll_reaches; [now apply Hsub | exact Hnow].
  - intros Hnow. apply Hsub.
    destruct (isIframeLoaded env (iframeLoadState s) (watched page)) eqn:E;
      [| reflexivity].
    rewrite (Hmono _ E) in Hnow. discriminate.
Qed.

Lemma setLoadState_same (s : Store) :
  setLoadState s (iframeLoadState s) = s.
Proof. destruct s; reflexivity. Qed.

Lemma informed_step (s : Store) (e : Event) :
  ownLifecycle page e = false ->
  informed s -> informed (step env watched s e).
Proof.
  intros Hown Hinf. destruct e as [| | u | p | p | p | p]; simpl.
  - apply informed_after_load; [| exact Hinf].
    intros url. apply IframeLoadFacts.isIframeLoaded_set_calendar.
  - apply informed_after_load; [| exact Hinf].
    intros url. apply IframeLoadFacts.isIframeLoaded_set_officeHours.
  - unfold preloadOnload.
    destruct (String.eqb u (CALENDAR_URL env)).
    + apply informed_after_load; [| exact Hinf].
      intros url. apply IframeLoadFacts.isIframeLoaded_set_calendar.
    + destruct (String.eqb u (OFFICE_HOURS_URL env)).
      * apply informed_after_load; [| exact Hinf].
        intros url. apply IframeLoadFacts.isIframeLoaded_set_officeHours.
      * rewrite <- (setLoadState_same s) at 1.
        apply informed_after_load; [| exact Hinf]. auto.
  - destruct Hinf as [H1 H2].
    unfold IframeLoad.informed, handleIframeLoad. simpl.
    split; [| exact H2].
    intros Hl. destruct (Nat.eqb page p); [reflexivity | now apply H1].
  - simpl in Hown. rewrite Nat.eqb_sym in Hown.
    destruct Hinf as [H1 H2].
    unfold IframeLoad.informed, render. simpl. rewrite Hown.
    split; assumption.
  - simpl in Hown. rewrite Nat.eqb_sym in Hown.
    destruct Hinf as [H1 H2].
    unfold IframeLoad.informed, effect.
    destruct (isIframeLoaded env (iframeLoadState s) (watched p)); simpl.
    + rewrite Hown. split; assumption.
    + split; [assumption |].
      intros Hl. apply in_or_app. left. now apply H2.
  - simpl in Hown. apply Nat.eqb_neq in Hown.
    destruct Hinf as [H1 H2]. unfold IframeLoad.informed. simpl.
    split; [assumption |].
    intros Hl. apply IframePreloaderMore.unsubscribe_in_other;
      [congruence | now apply H2].
Qed.

Lemma informed_run (events : list Event) (s : Store) :
  forallb (fun e => negb (ownLifecycle page e)) events = true ->
  informed s -> informed (run env watched events s).
Proof.
  unfold run. revert s.
  induction events as [| e events IH]; intros s Hev Hinf; simpl;
    [exact Hinf |].
  simpl in Hev. apply andb_true_iff in Hev. destruct Hev as [He Hev].
  apply IH; [exact Hev |].
  apply informed_step; [| exact Hinf].
  now apply negb_true_iff in He.
Qed.

End MountedPage.

End IframeLoadInvariant.

(** A mounted page always learns that its document is loaded: from the
    run of a page's effect on, through any load events, loads of iframes,
    and renders, effects and cleanups of other pages, whenever the page's
    document is reported loaded the page's [isLoading] is false, so its
    skeleton is not shown over a loaded document. *)
Theorem mounted_page_learns_of_load (env : IframeLoad.ImportMetaEnv)
  (watched : IframePreloader.Callback -> string)
  (page : IframePreloader.Callback) (events : list IframeLoad.Event)
  (s : IframeLoad.Store) :
  forallb (fun e => negb (IframeLoad.ownLifecycle page e)) events = true ->
  IframeLoad.isIframeLoaded env
    (IframeLoad.iframeLoadState
       (IframeLoad.run env watched (IframeLoad.EffectRan page :: events) s))
    (watched page) = true ->
  IframeLoad.isLoading
    (IframeLoad.run env watched (IframeLoad.EffectRan page :: events) s) page
  = false.
Proof.
  intros Hev. unfold IframeLoad.run. simpl fold_left.
  change (fold_left (IframeLoad.step env watched) events ?x)
    with (IframeLoad.run env watched events x).
  apply (IframeLoadInvariant.informed_run env watched page events).
  - exact Hev.
  - apply (IframeLoadInvariant.informed_after_effect env watched page s).
Qed.

(** The effect of the calendar page runs before anything has loaded,
    another page comes and goes, and then the preloader's calendar iframe
    loads. *)
Lemma mounted_page_learns_of_load_witness :
  IframeLoad.isLoading
    (IframeLoad.run (IframeLoad.mkEnv None None)
       (fun c => if Nat.eqb c 1
                 then IframeLoad.CALENDAR_URL (IframeLoad.mkEnv None None)
                 else IframeLoad.OFFICE_HOURS_URL (IframeLoad.mkEnv None None))
       [ IframeLoad.EffectRan 1; IframeLoad.Rendered 2;
         IframeLoad.EffectRan 2; IframeLoad.CleanedUp 2;
         IframeLoad.CalendarIframeLoaded ]
       (IframeLoad.mkStore (IframeLoad.mkLoadState false false) []
          (fun _ => true)))
    1 = false.
Proof.
  apply mounted_page_learns_of_load; reflexivity.
Defined.

(** Mounting a page: the skeleton is shown exactly when the page's
    document is not yet reported loaded.  If it is loaded, the page
    subscribes nothing and its effect returns no cleanup; if it is not,
    the page's closure is pushed onto the listener list and the cleanup
    the effect returns takes it off again, restoring the list when the
    closure was new to it. *)
Theorem mount_subscribes_when_not_loaded (env : IframeLoad.ImportMetaEnv)
  (watched : IframePreloader.Callback -> string)
  (page : IframePreloader.Callback) (s : IframeLoad.Store) :
  let mounted :=
    IframeLoad.effect env watched page
      (IframeLoad.render env watched page s) in
  IframeLoad.isLoading (fst mounted) page =
    negb (IframeLoad.isIframeLoaded env (IframeLoad.iframeLoadState s)
            (watched page)) /\
  (IframeLoad.isIframeLoaded env (IframeLoad.iframeLoadState s)
     (watched page) = true ->
   IframeLoad.loadListeners (fst mounted) = IframeLoad.loadListeners s /\
   snd mounted = None) /\
  (IframeLoad.isIframeLoaded env (IframeLoad.iframeLoadState s)
     (watched page) = false ->
   IframeLoad.loadListeners (fst mounted) =
     (IframeLoad.loadListeners s ++ [page])%list /\
   exists cleanup,
     snd mounted = Some cleanup /\
     (~ In page (IframeLoad.loadListeners s) ->
      IframeLoad.loadListeners (cleanup (fst mounted)) =
        IframeLoad.loadListeners s)).
Proof.
  unfold IframeLoad.effect, IframeLoad.render. simpl.
  destruct (IframeLoad.isIframeLoaded env (IframeLoad.iframeLoadState s)
              (watched page)) eqn:E; simpl.
  - rewrite Nat.eqb_refl. repeat split; discriminate.
  - rewrite Nat.eqb_refl. split; [reflexivity |].
    split; [discriminate |]. intros _. split; [reflexivity |].
    eexists. split; [reflexivity |].
    intros Hfresh. simpl.
    now apply IframePreloaderFacts.unsubscribe_push_fresh.
Qed.

Lemma mount_subscribes_when_not_loaded_witness :
  IframeLoad.loadListeners
    (fst (IframeLoad.effect (IframeLoad.mkEnv None None)
            (fun _ => IframeLoad.CALENDAR_URL (IframeLoad.mkEnv None None)) 3
            (IframeLoad.render (IframeLoad.mkEnv None None)
               (fun _ => IframeLoad.CALENDAR_URL (IframeLoad.mkEnv None None))
               3
               (IframeLoad.mkStore (IframeLoad.mkLoadState false true) [1; 2]
                  (fun _ => false)))))
  = [1; 2; 3].
Proof.
  apply (proj2 (proj2 (mount_subscribes_when_not_loaded
                         (IframeLoad.mkEnv None None)
                         (fun _ => IframeLoad.CALENDAR_URL
                                     (IframeLoad.mkEnv None None)) 3
                         (IframeLoad.mkStore
                            (IframeLoad.mkLoadState false true) [1; 2]
                            (fun _ => false))))).
  reflexivity.
Defined.

(** A page's skeleton is hidden only on account of its own document: an
    event other than the load of the page's own iframe or the page's own
    first render, after which the page's document is still not reported
    loaded, leaves the page's [isLoading] as it was.  The load of the office hours
    document does not hide the skeleton of the calendar page. *)
Theorem other_documents_leave_page_alone (env : IframeLoad.ImportMetaEnv)
  (watched : IframePreloader.Callback -> string)
  (page : IframePreloader.Callback) (e : IframeLoad.Event)
  (s : IframeLoad.Store) :
  e <> IframeLoad.PageIframeLoaded page ->
  e <> IframeLoad.Rendered page ->
  IframeLoad.isIframeLoaded env
    (IframeLoad.iframeLoadState (IframeLoad.step env watched s e))
    (watched page) = false ->
  IframeLoad.isLoading (IframeLoad.step env watched s e) page =
    IframeLoad.isLoading s page.
Proof.
  intros Hp Hm. destruct e as [| | u | p | p | p | p]; simpl.
  - unfold IframeLoad.calendarOnload, IframeLoad.notify.
    rewrite (proj1 (IframeLoadFacts.notifyAll_frame env watched _ _)).
    intros H. now rewrite IframeLoadFacts.notifyAll_unloaded.
  - unfold IframeLoad.officeHoursOnload, IframeLoad.notify.
    rewrite (proj1 (IframeLoadFacts.notifyAll_frame env watched _ _)).
    intros H. now rewrite IframeLoadFacts.notifyAll_unloaded.
  - unfold IframeLoad.preloadOnload, IframeLoad.notify.
    rewrite (proj1 (IframeLoadFacts.notifyAll_frame env watched _ _)).
    intros H. rewrite IframeLoadFacts.notifyAll_unloaded; [| exact H].
    destruct (String.eqb u (IframeLoad.CALENDAR_URL env)); [reflexivity |].
    destruct (String.eqb u (IframeLoad.OFFICE_HOURS_URL env)); reflexivity.
  - intros _. destruct (Nat.eqb_spec page p) as [-> | _];
      [now elim Hp | reflexivity].
  - intros _. destruct (Nat.eqb_spec page p) as [-> | _];
      [now elim Hm | reflexivity].
  - unfold IframeLoad.effect.
    destruct (IframeLoad.isIframeLoaded env (IframeLoad.iframeLoadState s)
                (watched p)) eqn:E; simpl; [| reflexivity].
    intros Hl. destruct (Nat.eqb_spec page p) as [-> | _];
      [congruence | reflexivity].
  - reflexivity.
Qed.

(** The calendar page is subscribed and waiting; the office hours iframe
    of the preloader loads; the calendar page still shows its skeleton. *)
Lemma other_documents_leave_page_alone_witness :
  IframeLoad.isLoading
    (IframeLoad.step (IframeLoad.mkEnv None None)
       (fun _ => IframeLoad.CALENDAR_URL (IframeLoad.mkEnv None None))
       (IframeLoad.mkStore (IframeLoad.mkLoadState false false) [1]
          (fun _ => true))
       IframeLoad.OfficeHoursIframeLoaded)
    1 = true.
Proof.
  rewrite (other_documents_leave_page_alone (IframeLoad.mkEnv None None)
             (fun _ => IframeLoad.CALENDAR_URL (IframeLoad.mkEnv None None))
             1 IframeLoad.OfficeHoursIframeLoaded
             (IframeLoad.mkStore (IframeLoad.mkLoadState false false) [1]
                (fun _ => true))).
  - reflexivity.
  - discriminate.
  - discriminate.
  - reflexivity.
Defined.

(** ** The build script in every environment *)

Module BuildScriptMore.
Import BuildScript.
Local Open Scope list_scope.

(** Case analysis on the exit statuses the script meets, in order. *)
Ltac by_statuses env :=
  unfold run, build_with_canvas, steps; simpl; unfold finished; simpl;
  destruct (env ResolveScriptDir) eqn:?; simpl;
  [ destruct (env ResolveProjectRoot) eqn:?; simpl;
    [ destruct (env CdProjectRoot) eqn:?; simpl;
      [ destruct (env CommandVPython3) eqn:?; simpl;
        [ destruct (env FetchCanvasStaff) eqn:?; simpl;
          [ destruct (env NpmBuildOnly) eqn:?; simpl | ] | ] | ] | ] | ].

End BuildScriptMore.

(** The site is built exactly when every command before the build
    succeeds: resolving the two directories, changing into the project
    root, finding [python3], and the fetch. *)
Theorem site_built_iff_all_succeed (env : BuildScript.Env) :
  BuildScript.built
    (snd (BuildScript.run env BuildScript.build_with_canvas)) = true <->
  env BuildScript.ResolveScriptDir = 0 /\
  env BuildScript.ResolveProjectRoot = 0 /\
  env BuildScript.CdProjectRoot = 0 /\
  env BuildScript.CommandVPython3 = 0 /\
  env BuildScript.FetchCanvasStaff = 0.
Proof.
  BuildScriptMore.by_statuses env; split; try discriminate;
    try (intros _; tauto);
    intros (? & ? & ? & ? & ?); discriminate.
Qed.

(** The exit code of the script is the exit status of the first command
    that fails (1 when [python3] is not found), and 0 when none does. *)
Theorem exit_code_is_first_failure (env : BuildScript.Env) :
  fst (BuildScript.run env BuildScript.build_with_canvas) =
    match find (fun n => negb (Nat.eqb n 0))
            [ env BuildScript.ResolveScriptDir;
              env BuildScript.ResolveProjectRoot;
              env BuildScript.CdProjectRoot;
              if Nat.eqb (env BuildScript.CommandVPython3) 0 then 0 else 1;
              env BuildScript.FetchCanvasStaff;
              env BuildScript.NpmBuildOnly ] with
    | Some n => n
    | None => 0
    end.
Proof. BuildScriptMore.by_statuses env; reflexivity. Qed.

(** The warning about a failed fetch is never printed, whatever the
    commands of the script do: under [set -e] the check of [$?] after the
    fetch is reached only with status 0. *)
Theorem fetch_warning_never_printed (env : BuildScript.Env) :
  ~ In (BuildScript.Printed BuildScript.warning)
      (snd (BuildScript.run env BuildScript.build_with_canvas)).
Proof.
  BuildScriptMore.by_statuses env; intros H;
    repeat (destruct H as [H | H]; [discriminate H |]); exact H.
Qed.

(** The line [=== Build Complete ===] is printed exactly when the script
    ends with exit code 0. *)
Theorem build_complete_iff_success (env : BuildScript.Env) :
  In (BuildScript.Printed "=== Build Complete ===")
    (snd (BuildScript.run env BuildScript.build_with_canvas)) <->
  fst (BuildScript.run env BuildScript.build_with_canvas) = 0.
Proof.
  BuildScriptMore.by_statuses env; split; try discriminate; try reflexivity;
    try (intros H;
         repeat (destruct H as [H | H]; [discriminate H |]); now elim H).
  intros _. repeat (try (left; reflexivity); right).
Qed.

(** Without [python3] the script stops with exit code 1 after printing
    the error, and runs neither the fetch nor the build. *)
Theorem python3_missing_stops (env : BuildScript.Env) :
  env BuildScript.ResolveScriptDir = 0 ->
  env BuildScript.ResolveProjectRoot = 0 ->
  env BuildScript.CdProjectRoot = 0 ->
  env BuildScript.CommandVPython3 <> 0 ->
  BuildScript.run env BuildScript.build_with_canvas =
    (1, [ BuildScript.Ran BuildScript.ResolveScriptDir;
          BuildScript.Ran BuildScript.ResolveProjectRoot;
          BuildScript.Printed "=== Fetching Canvas Staff Data ===";
          BuildScript.Ran BuildScript.CdProjectRoot;
          BuildScript.Ran BuildScript.CommandVPython3;
          BuildScript.Printed "ERROR: python3 is required but not found" ]).
Proof.
  intros H1 H2 H3 H4.
  unfold BuildScript.run, BuildScript.build_with_canvas, BuildScript.steps.
  simpl. unfold BuildScript.finished. simpl.
  rewrite H1. simpl. rewrite H2. simpl. rewrite H3. simpl.
  destruct (env BuildScript.CommandVPython3); [now elim H4 | reflexivity].
Qed.

Lemma python3_missing_stops_witness :
  fst (BuildScript.run
         (fun p => match p with
                   | BuildScript.CommandVPython3 => 127
                   | _ => 0
                   end)
         BuildScript.build_with_canvas) = 1.
Proof.
  rewrite (python3_missing_stops
             (fun p => match p with
                       | BuildScript.CommandVPython3 => 127
                       | _ => 0
                       end)); [reflexivity | reflexivity | reflexivity
                               | reflexivity | discriminate].
Defined.

(** ** Download links of the course material page *)

Module CourseMaterialFacts.
Import CourseMaterial.

Lemma stripPrefix_app (p s t r : string) :
  stripPrefix p s = Some r -> stripPrefix p (s ++ t) = Some (r ++ t).
Proof.
  revert s. induction p as [| a p IH]; intros s; simpl.
  - intros H. now inversion H.
  - destruct s as [| b s]; simpl; [discriminate |].
    destruct (Ascii.eqb a b); [apply IH | discriminate].
Qed.

Lemma includes_app_l (needle s t : string) :
  includes needle s = true -> includes needle (s ++ t) = true.
Proof.
  induction s as [| c s IH]; simpl.
  - destruct (stripPrefix needle EmptyString) as [r |] eqn:E;
      [| discriminate].
    intros _. destruct needle; [| discriminate].
    destruct t; reflexivity.
  - destruct (stripPrefix needle (String c s)) as [r |] eqn:E.
    + intros _.
      change (String c (s ++ t)) with (String c s ++ t).
      now rewrite (stripPrefix_app _ _ t _ E).
    + intros H.
      destruct (stripPrefix needle (String c (s ++ t))); [reflexivity |].
      now apply IH.
Qed.

Lemma matchId_unfold (marker s : string) :
  matchId marker s =
    match
      match stripPrefix marker s with
      | Some rest =>
          match takeId rest with
          | EmptyString => None
          | fileId => Some fileId
          end
      | None => None
      end
    with
    | Some fileId => Some fileId
    | None =>
        match s with
        | EmptyString => None
        | String _ r => matchId marker r
        end
    end.
Proof. destruct s; reflexivity. Qed.

Lemma matchId_skip (marker : string) (c : ascii) (r : string) :
  stripPrefix marker (String c r) = None ->
  matchId marker (String c r) = matchId marker r.
Proof. intros H. rewrite matchId_unfold, H. reflexivity. Qed.

Lemma matchId_hit (marker s rest : string) :
  stripPrefix marker s = Some rest ->
  takeId rest <> EmptyString ->
  matchId marker s = Some (takeId rest).
Proof.
  intros H Hne. rewrite matchId_unfold, H.
  destruct (takeId rest); [now elim Hne | reflexivity].
Qed.

Lemma takeId_idem (s : string) : takeId (takeId s) = takeId s.
Proof.
  induction s as [| c s IH]; simpl; [reflexivity |].
  destruct (isIdChar c) eqn:E; simpl; [| reflexivity].
  now rewrite E, IH.
Qed.

Lemma takeId_app (fileId rest : string) :
  takeId fileId = fileId -> takeId rest = EmptyString ->
  takeId (fileId ++ rest) = fileId.
Proof.
  intros H Hr. induction fileId as [| c s IH]; simpl in *; [exact Hr |].
  destruct (isIdChar c); [| discriminate].
  inversion H as [H']. rewrite H'. f_equal. now apply IH.
Qed.

(** What a match captures: a non-empty run of class characters. *)
Lemma matchId_token (marker s fileId : string) :
  matchId marker s = Some fileId ->
  fileId <> EmptyString /\ takeId fileId = fileId.
Proof.
  induction s as [| c s IH]; rewrite matchId_unfold.
  - destruct (stripPrefix marker EmptyString) as [rest |]; [| discriminate].
    destruct (takeId rest) eqn:E; [discriminate |].
    intros H. inversion H; subst. split; [discriminate |].
    rewrite <- E. apply takeId_idem.
  - destruct (stripPrefix marker (String c s)) as [rest |].
    + destruct (takeId rest) eqn:E; [exact IH |].
      intros H. inversion H; subst. split; [discriminate |].
      rewrite <- E. apply takeId_idem.
    + exact IH.
Qed.

Lemma idChar_not_slash (c : ascii) :
  isIdChar c = true -> Ascii.eqb "/" c = false.
Proof.
  intros H. destruct (Ascii.eqb_spec "/" c) as [<- | _]; [| reflexivity].
  vm_compute in H. discriminate.
Qed.

(** A file id holds no slash, so no marker starting with one matches
    inside it. *)
Lemma matchId_in_token (marker fileId : string) :
  takeId fileId = fileId -> matchId (String "/" marker) fileId = None.
Proof.
  induction fileId as [| c s IH]; intros H; [reflexivity |].
  simpl in H. destruct (isIdChar c) eqn:E; [| discriminate].
  inversion H as [H'].
  rewrite matchId_skip.
  - rewrite H'. now apply IH.
  - cbn [stripPrefix]. now rewrite (idChar_not_slash c E).
Qed.

Ltac skip_prefix :=
  cbn [append]; repeat (rewrite matchId_skip by reflexivity).

Lemma presentation_url (fileId rest : string) :
  fileId <> EmptyString -> takeId fileId = fileId ->
  takeId rest = EmptyString ->
  getDownloadUrl ("https://docs.google.com/presentation/d/" ++ fileId ++ rest)
  = presentationExport fileId.
Proof.
  intros Hne Hid Hrest. unfold getDownloadUrl, presentationBranch.
  rewrite (includes_app_l "docs.google.com"
             "https://docs.google.com/presentation/d/") by reflexivity.
  rewrite (includes_app_l "docs.google.com/presentation"
             "https://docs.google.com/presentation/d/") by reflexivity.
  replace (String.eqb _ "#") with false by reflexivity.
  cbn [orb negb andb].
  replace (matchId "/d/"
             ("https://docs.google.com/presentation/d/" ++ fileId ++ rest))
    with (Some fileId); [reflexivity |].
  symmetry. skip_prefix.
  rewrite (matchId_hit "/d/" _ (fileId ++ rest)) by
    (reflexivity || (rewrite takeId_app by assumption; exact Hne)).
  now rewrite takeId_app.
Qed.

Lemma drive_download_fixed (fileId : string) :
  takeId fileId = fileId ->
  getDownloadUrl (driveDownload fileId) = driveDownload fileId.
Proof.
  intros Hid. unfold getDownloadUrl, presentationBranch, driveFileBranch,
    driveDownload.
  rewrite (includes_app_l "drive.google.com"
             "https://drive.google.com/uc?export=download&id=")
    by reflexivity.
  replace (String.eqb _ "#") with false by reflexivity.
  rewrite andb_false_r. cbn [orb].
  replace (matchId "/d/"
             ("https://drive.google.com/uc?export=download&id=" ++ fileId))
    with (@None string).
  2:{ symmetry. skip_prefix. now apply matchId_in_token. }
  replace (matchId "/file/d/"
             ("https://drive.google.com/uc?export=download&id=" ++ fileId))
    with (@None string).
  2:{ symmetry. skip_prefix. now apply matchId_in_token. }
  destruct (includes "docs.google.com/presentation" _);
    destruct (includes "drive.google.com/file/d/" _);
    destruct (includes "drive.google.com/drive/folders/" _); reflexivity.
Qed.

End CourseMaterialFacts.

Module CourseMaterialMore.
Import CourseMaterial.
Import CourseMaterialFacts.

Lemma drive_file_matches (fileId rest : string) :
  fileId <> EmptyString -> takeId fileId = fileId ->
  takeId rest = EmptyString ->
  matchId "/file/d/" ("https://drive.google.com/file/d/" ++ fileId ++ rest)
  = Some fileId /\
  matchId "/d/" ("https://drive.google.com/file/d/" ++ fileId ++ rest)
  = Some fileId.
Proof.
  intros Hne Hid Hrest. split.
  - skip_prefix.
    rewrite (matchId_hit "/file/d/" _ (fileId ++ rest)) by
      (reflexivity || (rewrite takeId_app by assumption; exact Hne)).
    now rewrite takeId_app.
  - skip_prefix.
    rewrite (matchId_hit "/d/" _ (fileId ++ rest)) by
      (reflexivity || (rewrite takeId_app by assumption; exact Hne)).
    now rewrite takeId_app.
Qed.

Lemma drive_file_url (fileId rest : string) :
  fileId <> EmptyString -> takeId fileId = fileId ->
  takeId rest = EmptyString ->
  getDownloadUrl ("https://drive.google.com/file/d/" ++ fileId ++ rest) =
    if includes "docs.google.com/presentation"
         ("https://drive.google.com/file/d/" ++ fileId ++ rest)
    then presentationExport fileId
    else driveDownload fileId.
Proof.
  intros Hne Hid Hrest.
  destruct (drive_file_matches fileId rest Hne Hid Hrest) as [Mf Md].
  unfold getDownloadUrl, presentationBranch, driveFileBranch.
  rewrite (includes_app_l "drive.google.com"
             "https://drive.google.com/file/d/") by reflexivity.
  rewrite (includes_app_l "drive.google.com/file/d/"
             "https://drive.google.com/file/d/") by reflexivity.
  replace (String.eqb _ "#") with false by reflexivity.
  rewrite andb_false_r. cbn [orb].
  rewrite Mf, Md.
  destruct (includes "docs.google.com/presentation" _); reflexivity.
Qed.

Lemma result_shape (url : string) :
  getDownloadUrl url = url \/
  exists fileId,
    fileId <> EmptyString /\ takeId fileId = fileId /\
    (getDownloadUrl url = presentationExport fileId \/
     getDownloadUrl url = driveDownload fileId).
Proof.
  unfold getDownloadUrl, presentationBranch, driveFileBranch.
  destruct (String.eqb url "#" ||
            negb (includes "docs.google.com" url) &&
            negb (includes "drive.google.com" url))%bool; [now left |].
  destruct (includes "docs.google.com/presentation" url).
  - destruct (matchId "/d/" url) as [fileId |] eqn:M.
    + right. exists fileId. destruct (matchId_token _ _ _ M) as [H1 H2].
      repeat split; auto.
    + destruct (includes "drive.google.com/file/d/" url).
      * destruct (matchId "/file/d/" url) as [fileId |] eqn:M2.
        -- right. exists fileId.
           destruct (matchId_token _ _ _ M2) as [H1 H2].
           repeat split; auto.
        -- left. destruct (includes _ url); reflexivity.
      * left. destruct (includes _ url); reflexivity.
  - destruct (includes "drive.google.com/file/d/" url).
    + destruct (matchId "/file/d/" url) as [fileId |] eqn:M2.
      * right. exists fileId.
        destruct (matchId_token _ _ _ M2) as [H1 H2].
        repeat split; auto.
      * left. destruct (includes _ url); reflexivity.
    + left. destruct (includes _ url); reflexivity.
Qed.

End CourseMaterialMore.

(** A Google Slides link becomes its PDF export link: for a URL that is
    [https://docs.google.com/presentation/d/], a file id of one or more
    characters of [[a-zA-Z0-9_-]], and a rest that does not go on with
    such a character (as [/edit?usp=sharing], or nothing), the download
    URL is the export URL of that file id. *)
Theorem download_url_of_presentation (fileId rest : string) :
  fileId <> EmptyString ->
  CourseMaterial.takeId fileId = fileId ->
  CourseMaterial.takeId rest = EmptyString ->
  CourseMaterial.getDownloadUrl
    ("https://docs.google.com/presentation/d/" ++ fileId ++ rest)
  = "https://docs.google.com/presentation/d/" ++ fileId
      ++ "/export?format=pdf".
Proof. apply CourseMaterialFacts.presentation_url. Qed.

Lemma download_url_of_presentation_witness :
  CourseMaterial.getDownloadUrl
    "https://docs.google.com/presentation/d/1AbC_d-9/edit?usp=sharing"
  = "https://docs.google.com/presentation/d/1AbC_d-9/export?format=pdf".
Proof.
  apply (download_url_of_presentation "1AbC_d-9" "/edit?usp=sharing").
  - discriminate.
  - reflexivity.
  - reflexivity.
Defined.

(** A Google Drive file link becomes its direct download link, unless the
    text [docs.google.com/presentation] occurs somewhere in the URL: then
    the presentation branch runs first, finds the file id behind [/d/],
    and the Drive file is given a Slides export link. *)
Theorem download_url_of_drive_file (fileId rest : string) :
  fileId <> EmptyString ->
  CourseMaterial.takeId fileId = fileId ->
  CourseMaterial.takeId rest = EmptyString ->
  CourseMaterial.getDownloadUrl
    ("https://drive.google.com/file/d/" ++ fileId ++ rest) =
    if CourseMaterial.includes "docs.google.com/presentation"
         ("https://drive.google.com/file/d/" ++ fileId ++ rest)
    then "https://docs.google.com/presentation/d/" ++ fileId
           ++ "/export?format=pdf"
    else "https://drive.google.com/uc?export=download&id=" ++ fileId.
Proof. apply CourseMaterialMore.drive_file_url. Qed.

Lemma download_url_of_drive_file_witness :
  CourseMaterial.getDownloadUrl
    "https://drive.google.com/file/d/1AbC_d-9/view?usp=sharing"
  = "https://drive.google.com/uc?export=download&id=1AbC_d-9" /\
  CourseMaterial.getDownloadUrl
    "https://drive.google.com/file/d/1AbC_d-9/view?from=docs.google.com/presentation"
  = "https://docs.google.com/presentation/d/1AbC_d-9/export?format=pdf".
Proof.
  split.
  - refine (eq_trans
              (download_url_of_drive_file "1AbC_d-9" "/view?usp=sharing"
                 _ _ _) _);
      [discriminate | reflexivity | reflexivity | reflexivity].
  - refine (eq_trans
              (download_url_of_drive_file "1AbC_d-9"
                 "/view?from=docs.google.com/presentation" _ _ _) _);
      [discriminate | reflexivity | reflexivity | reflexivity].
Defined.

(** The download URL is either the URL given or one of the two link
    templates filled with a file id of one or more characters of
    [[a-zA-Z0-9_-]]; a URL that is [#], or mentions neither
    [docs.google.com] nor [drive.google.com], is always returned as
    given. *)
Theorem download_url_shape (url : string) :
  (CourseMaterial.getDownloadUrl url = url \/
   exists fileId,
     fileId <> EmptyString /\ CourseMaterial.takeId fileId = fileId /\
     (CourseMaterial.getDownloadUrl url =
        CourseMaterial.presentationExport fileId \/
      CourseMaterial.getDownloadUrl url =
        CourseMaterial.driveDownload fileId)) /\
  (url = "#" \/
   (CourseMaterial.includes "docs.google.com" url = false /\
    CourseMaterial.includes "drive.google.com" url = false) ->
   CourseMaterial.getDownloadUrl url = url).
Proof.
  split; [apply CourseMaterialMore.result_shape |].
  unfold CourseMaterial.getDownloadUrl.
  intros [-> | [H1 H2]]; [reflexivity |].
  rewrite H1, H2, orb_true_r. reflexivity.
Qed.

Lemma download_url_shape_witness :
  CourseMaterial.getDownloadUrl "https://example.org/slides/d/abc.pdf"
  = "https://example.org/slides/d/abc.pdf".
Proof.
  apply (proj2 (download_url_shape "https://example.org/slides/d/abc.pdf")).
  right. split; reflexivity.
Defined.

(** Converting a link twice is the same as converting it once: the
    export and download links the function produces are left as they
    are. *)
Theorem download_url_idempotent (url : string) :
  CourseMaterial.getDownloadUrl (CourseMaterial.getDownloadUrl url) =
  CourseMaterial.getDownloadUrl url.
Proof.
  destruct (CourseMaterialMore.result_shape url)
    as [E | [fileId (Hne & Hid & [E | E])]]; rewrite E.
  - exact E.
  - apply (CourseMaterialFacts.presentation_url fileId "/export?format=pdf");
      [exact Hne | exact Hid | reflexivity].
  - now apply CourseMaterialFacts.drive_download_fixed.
Qed.
